(** * Self-Organizing Feature Maps: the [SOM] class

  A shallow embedding of the class [SOM] of
  [4-Self_Organizing_Maps/Self-Organizing Feature Maps.ipynb]
  ([__init__], [get_bmu], [get_bmu_dist], [get_nbhood_radius],
  [teach_row], [teach]) and the properties of it that the specification
  states.

  Numbers.  The notebook computes in [float64].  The methods are
  written here over the real numbers: every operation of the code is the
  exact operation.  The search for the best matching unit is given once
  more over an arithmetic that is a parameter ([Fp]), of which the reals
  and the binary64 floats are instances, and what it returns is proved
  for both at once.  Python integers are [Z]; array extents are [nat].

  Effects.  A method runs against the object [self] and the standard
  output; a Python exception leaves both as they were when it was
  raised. *)

From Stdlib Require Import Reals Lra Lia ZArith QArith List Bool.
From Stdlib Require Import Floats.
Import ListNotations.
Local Open Scope R_scope.

(** ** Python scalars *)

Module Py.

Inductive exn : Type :=
| ValueError
| ZeroDivisionError.

Definition result (A : Type) : Type := (exn + A)%type.

(** [a / b] on Python numbers: true division, which raises on a zero
    divisor. *)
Definition truediv (a b : R) : result R :=
  if Req_dec_T b 0 then inl ZeroDivisionError else inr (a / b).

(** [math.log(x)]: a domain error outside the positive reals. *)
Definition math_log (x : R) : result R :=
  if Rle_dec x 0 then inl ValueError else inr (ln x).

(** [range(n)]: empty when [n <= 0]. *)
Definition range (n : Z) : list Z := map Z.of_nat (seq 0 (Z.to_nat n)).

End Py.

(** ** numpy arrays of rank 2 and 3

  An array carries its shape and its elements in C order, as nested
  lists: axis 0 outermost. *)

Module Np.
Import Py.

Record ndarray2 (A : Type) : Type := mk2
  { shape2 : nat * nat;
    data2 : list (list A) }.

Record ndarray3 (A : Type) : Type := mk3
  { shape3 : nat * nat * nat;
    data3 : list (list (list A)) }.

Arguments mk2 {A} _ _.
Arguments shape2 {A} _.
Arguments data2 {A} _.
Arguments mk3 {A} _ _.
Arguments shape3 {A} _.
Arguments data3 {A} _.

Definition map2 {A B C : Type} (f : A -> B -> C)
    (a : list A) (b : list B) : list C :=
  map (fun p => f (fst p) (snd p)) (combine a b).

(** The extent that two extents broadcast to, or the shape error. *)
Definition broadcast (n k : nat) : result nat :=
  if Nat.eqb n k then inr n
  else if Nat.eqb k 1 then inr n
  else if Nat.eqb n 1 then inr k
  else inl ValueError.

(** An operator along one axis, once the extents are known to broadcast:
    an operand of extent 1 is stretched over the other. *)
Definition bcast {A : Type} (f : A -> A -> A) (a b : list A) : list A :=
  match b with
  | [y] => map (fun x => f x y) a
  | _ => match a with
         | [x] => map (f x) b
         | _ => map2 f a b
         end
  end.

(** [a `op` v] and [v `op` a] for an array of rank 3 and one of rank 1:
    [v] runs along the last axis. *)
Definition op_vec {A : Type} (f : A -> A -> A)
    (a : ndarray3 A) (v : list A) : result (ndarray3 A) :=
  let '(n0, n1, n2) := shape3 a in
  match broadcast n2 (length v) with
  | inl e => inl e
  | inr d => inr (mk3 (n0, n1, d)
                      (map (map (fun c => bcast f c v)) (data3 a)))
  end.

Definition vec_op {A : Type} (f : A -> A -> A)
    (v : list A) (a : ndarray3 A) : result (ndarray3 A) :=
  let '(n0, n1, n2) := shape3 a in
  match broadcast (length v) n2 with
  | inl e => inl e
  | inr d => inr (mk3 (n0, n1, d)
                      (map (map (fun c => bcast f v c)) (data3 a)))
  end.

Definition map_elts3 {A B : Type} (f : A -> B) (a : ndarray3 A)
    : ndarray3 B :=
  mk3 (shape3 a) (map (map (map f)) (data3 a)).

Definition map_elts2 {A B : Type} (f : A -> B) (a : ndarray2 A)
    : ndarray2 B :=
  mk2 (shape2 a) (map (map f) (data2 a)).

(** [np.sum(a, 2)] *)
Definition sum_axis2 {A : Type} (add : A -> A -> A) (zero : A)
    (a : ndarray3 A) : ndarray2 A :=
  let '(n0, n1, _) := shape3 a in
  mk2 (n0, n1) (map (map (fun c => fold_right add zero c)) (data3 a)).

(** [a.argmin()]: the index, in the flattened array, of the first
    minimum; an empty array has none. *)
Fixpoint argmin_from (best_i : nat) (best : R) (i : nat) (l : list R)
    : nat :=
  match l with
  | [] => best_i
  | x :: l' =>
      if Rlt_dec x best then argmin_from i x (S i) l'
      else argmin_from best_i best (S i) l'
  end.

Definition argmin (a : ndarray2 R) : result nat :=
  match concat (data2 a) with
  | [] => inl ValueError
  | x :: l => inr (argmin_from 0 x 1 l)
  end.

(** [np.unravel_index(i, (n0, n1))] *)
Definition unravel_index (i : nat) (shape : nat * nat) : nat * nat :=
  (i / snd shape, i mod snd shape)%nat.

(** [np.arange(n)] *)
Definition arange (n : nat) : list Z := map Z.of_nat (seq 0 n).

(** [np.dstack((a, b))] of two arrays of one shape. *)
Definition dstack {A : Type} (a b : ndarray2 A) : ndarray3 A :=
  let '(n0, n1) := shape2 a in
  mk3 (n0, n1, 2%nat)
      (map2 (map2 (fun x y => [x; y])) (data2 a) (data2 b)).

(** [np.expand_dims(t, 2) * d]: the two arrays agree on axes 0 and 1,
    and the new last axis of [t], of extent 1, is stretched. *)
Definition expand_mul (t : ndarray2 R) (d : ndarray3 R) : ndarray3 R :=
  mk3 (shape3 d)
      (map2 (map2 (fun th c => bcast Rmult [th] c)) (data2 t) (data3 d)).

(** [w += d]: in place, so [d] must broadcast to the shape of [w]; the
    two arrays agree on axes 0 and 1. *)
Definition iadd (w d : ndarray3 R) : result (ndarray3 R) :=
  let '(_, _, n2) := shape3 w in
  let '(_, _, m2) := shape3 d in
  if Nat.eqb m2 n2 || Nat.eqb m2 1
  then inr (mk3 (shape3 w) (map2 (map2 (bcast Rplus)) (data3 w) (data3 d)))
  else inl ValueError.

End Np.

(** ** The class *)

Module Som.
Import Py Np.

Record SOM : Type := mkSOM
  { weights : ndarray3 R;
    num_iter : Z;
    map_radius : R;
    t_const : R;
    t_step : Z }.

(** What a method can touch: the object and what was printed.  A line
    ["Training Iteration:  i"] is kept as its [i]. *)
Record world : Type := mkWorld
  { self : SOM;
    stdout : list Z }.

Definition M (A : Type) : Type := world -> result A * world.

Definition ret {A : Type} (a : A) : M A := fun w => (inr a, w).

Definition bind {A B : Type} (m : M A) (k : A -> M B) : M B :=
  fun w =>
    match m w with
    | (inl e, w') => (inl e, w')
    | (inr a, w') => k a w'
    end.

Definition lift {A : Type} (r : result A) : M A := fun w => (r, w).

Definition attr {A : Type} (f : SOM -> A) : M A :=
  fun w => (inr (f (self w)), w).

Definition set_weights (a : ndarray3 R) : M unit :=
  fun w =>
    let s := self w in
    (inr tt,
     mkWorld (mkSOM a (num_iter s) (map_radius s) (t_const s) (t_step s))
             (stdout w)).

Definition print (i : Z) : M unit :=
  fun w => (inr tt, mkWorld (self w) (stdout w ++ [i])).

Declare Scope som_scope.
Delimit Scope som_scope with som.
Notation "x <- m ;; k" := (bind m (fun x => k))
  (at level 61, m at next level, right associativity) : som_scope.
Notation "m ;; k" := (bind m (fun _ => k))
  (at level 61, right associativity) : som_scope.
Local Open Scope som_scope.

Fixpoint for_ {A : Type} (l : list A) (body : A -> M unit) : M unit :=
  match l with
  | [] => ret tt
  | x :: l' => body x ;; for_ l' body
  end.

(** *** [__init__]

    [np.random.randint(256, size=...)] draws from the global generator;
    [rng k] stands for the [k]-th number it yields, reduced to
    [0 .. 255].  The array is filled in C order. *)

Section Init.
Variable rng : nat -> Z.

Definition randint (x y d : nat) : ndarray3 R :=
  mk3 (x, y, d)
      (map (fun i =>
         map (fun j =>
           map (fun k =>
                  IZR (rng ((i * y + j) * d + k)%nat mod 256))
               (seq 0 d))
             (seq 0 y))
           (seq 0 x)).

Definition max_shape (a : ndarray3 R) : nat :=
  let '(n0, n1, n2) := shape3 a in Nat.max n0 (Nat.max n1 n2).

Definition __init__ (x_size y_size dimen num_iter t_step : Z)
    : result SOM :=
  if (x_size <? 0)%Z || (y_size <? 0)%Z || (dimen <? 0)%Z
  then inl ValueError
  else
    let weights :=
      randint (Z.to_nat x_size) (Z.to_nat y_size) (Z.to_nat dimen) in
    let map_radius := IZR (Z.of_nat (max_shape weights)) / 2 in
    match math_log map_radius with
    | inl e => inl e
    | inr l =>
        match truediv (IZR num_iter) l with
        | inl e => inl e
        | inr t_const =>
            inr (mkSOM weights num_iter map_radius t_const t_step)
        end
    end.
End Init.

(** *** The methods *)

Definition get_bmu (vector : list R) : M (nat * nat) :=
  w <- attr weights ;;
  diff <- lift (op_vec Rminus w vector) ;;
  let distance :=
    sum_axis2 Rplus 0 (map_elts3 (fun x => x ^ 2) diff) in
  min_idx <- lift (argmin distance) ;;
  ret (unravel_index min_idx (shape2 distance)).

Definition get_bmu_dist (vector : list R) : M (ndarray2 Z) :=
  w <- attr weights ;;
  let '(x, y, rgb) := shape3 w in
  let xi := mk2 (x, y) (map (fun i => repeat i y) (arange x)) in
  let yi := mk2 (x, y) (repeat (arange y) x) in
  bmu <- get_bmu vector ;;
  let bmu_arr := [Z.of_nat (fst bmu); Z.of_nat (snd bmu)] in
  d <- lift (op_vec Z.sub (dstack xi yi) bmu_arr) ;;
  ret (sum_axis2 Z.add 0%Z (map_elts3 (fun c => (c ^ 2)%Z) d)).

Definition get_nbhood_radius (iter_count : Z) : M R :=
  r0 <- attr map_radius ;;
  tc <- attr t_const ;;
  q <- lift (truediv (IZR (- iter_count)) tc) ;;
  ret (r0 * exp q).

(** The learning rate [lr] is computed and is not part of the value
    returned.  The division by [2 * nbhood_radius ** 2] is numpy's; its
    divisor is not zero as long as [map_radius] is not
    ([nbhood_radius_neq_0] below). *)
Definition teach_row (vector : list R) (i : Z) : M (ndarray3 R) :=
  nbhood_radius <- get_nbhood_radius i ;;
  bmu_dist_int <- get_bmu_dist vector ;;
  let bmu_dist := map_elts2 IZR bmu_dist_int in
  n <- attr num_iter ;;
  q <- lift (truediv (IZR (- i)) (IZR n)) ;;
  let lr := 0.1 * exp q in
  let theta :=
    map_elts2 (fun d => exp (- d / (2 * nbhood_radius ^ 2))) bmu_dist in
  w <- attr weights ;;
  diff <- lift (vec_op Rminus vector w) ;;
  ret (expand_mul theta diff).

(** The statement [self.weights += self.teach_row(vector, i)]: the
    array is loaded, the right-hand side is evaluated, the sum is
    stored. *)
Definition teach_step (vector : list R) (i : Z) : M unit :=
  w <- attr weights ;;
  delta <- teach_row vector i ;;
  w' <- lift (iadd w delta) ;;
  set_weights w'.

Definition teach (t_set : list (list R)) : M unit :=
  n <- attr num_iter ;;
  for_ (range n) (fun i =>
    (if (i mod 10 =? 0)%Z then print i else ret tt) ;;
    for_ (range (Z.of_nat (length t_set))) (fun j =>
      teach_step (nth (Z.to_nat j) t_set []) i)).

End Som.

(** ** Shapes and cells *)

Module Shape.
Import Py Np Som.

(** The nested lists have the extents the shape announces. *)
Definition wf3 {A : Type} (a : ndarray3 A) : Prop :=
  let '(n0, n1, n2) := shape3 a in
  length (data3 a) = n0 /\
  Forall (fun row => length row = n1 /\
                     Forall (fun c => length c = n2) row) (data3 a).

(** The reference vector of the cell at [(x, y)]. *)
Definition cell (a : ndarray3 R) (x y : nat) : list R :=
  nth y (nth x (data3 a) []) [].

(** Squared Euclidean distance of two vectors of one length. *)
Definition sq_dist (a b : list R) : R :=
  fold_right Rplus 0 (map (fun x => x ^ 2) (map2 Rminus a b)).

(** The entry of the [distance] array of [get_bmu] for one cell. *)
Definition cell_dist (v c : list R) : R :=
  fold_right Rplus 0 (map (fun x => x ^ 2) (bcast Rminus c v)).

(** Squared distance on the grid, as [get_bmu_dist] computes it. *)
Definition grid_dist (bmu : nat * nat) (x y : nat) : Z :=
  ((Z.of_nat x - Z.of_nat (fst bmu)) ^ 2
   + ((Z.of_nat y - Z.of_nat (snd bmu)) ^ 2 + 0))%Z.

(** The values [teach_row] computes at iteration [i]: the neighbourhood
    radius, the learning rate [lr], and the influence [theta] on the cell
    at [(x, y)]. *)
Definition radius_at (s : SOM) (i : Z) : R :=
  map_radius s * exp (IZR (- i) / t_const s).

Definition learning_rate (s : SOM) (i : Z) : R :=
  0.1 * exp (IZR (- i) / IZR (num_iter s)).

Definition theta_at (s : SOM) (i : Z) (bmu : nat * nat) (x y : nat) : R :=
  exp (- IZR (grid_dist bmu x y) / (2 * radius_at s i ^ 2)).

Definition theta_rows (s : SOM) (i : Z) (bmu : nat * nat) (n0 n1 : nat)
    : list (list R) :=
  map (fun x => map (fun y => theta_at s i bmu x y) (seq 0 n1)) (seq 0 n0).

(** Every cell has [n1]-long rows of [n2]-long vectors. *)
Definition rows_wf {A : Type} (n1 n2 : nat) (rows : list (list (list A)))
    : Prop :=
  Forall (fun row : list (list A) =>
            length row = n1 /\ Forall (fun c => length c = n2) row) rows.

(** The array [teach_row] returns and the array [teach] stores, cell by
    cell, for the best matching unit [bmu]. *)
Definition delta_rows (s : SOM) (i : Z) (v : list R) (bmu : nat * nat)
    (n0 n1 : nat) : list (list (list R)) :=
  map2 (map2 (fun th c => bcast Rmult [th] c))
       (theta_rows s i bmu n0 n1)
       (map (map (fun c => bcast Rminus v c)) (data3 (weights s))).

Definition nudged_rows (s : SOM) (i : Z) (v : list R) (bmu : nat * nat)
    (n0 n1 : nat) : list (list (list R)) :=
  map2 (map2 (bcast Rplus)) (data3 (weights s)) (delta_rows s i v bmu n0 n1).

Definition with_weights (s : SOM) (a : ndarray3 R) : SOM :=
  mkSOM a (num_iter s) (map_radius s) (t_const s) (t_step s).

(** The same object and world under another [t_step], and what it means
    for a computation not to look at [t_step]: run under another value, it
    gives the same result and the same final world up to that value. *)
Definition set_t_step (ts : Z) (s : SOM) : SOM :=
  mkSOM (weights s) (num_iter s) (map_radius s) (t_const s) ts.

Definition retag (ts : Z) (w : world) : world :=
  mkWorld (set_t_step ts (self w)) (stdout w).

Definition blind {A : Type} (m : M A) : Prop :=
  forall ts w, m (retag ts w) = (fst (m w), retag ts (snd (m w))).

(** [(x, y)] comes before [(x', y')] when axis 0 is scanned outermost. *)
Definition scan_before (p q : nat * nat) : Prop :=
  (fst p < fst q)%nat \/ (fst p = fst q /\ (snd p < snd q)%nat).

(** The state in which the methods are meant to run: what [__init__]
    sets up and [teach] keeps. *)
Record consistent (s : SOM) : Prop := mkConsistent
  { c_wf : wf3 (weights s);
    c_radius : map_radius s <> 0;
    c_tconst : num_iter s <> 0%Z -> t_const s <> 0 }.

(** [bmu] is in the grid, no cell is nearer to [v] than the cell at [bmu],
    and every cell scanned before it is strictly farther. *)
Definition first_minimum (W : ndarray3 R) (v : list R) (n0 n1 : nat)
    (bmu : nat * nat) : Prop :=
  (fst bmu < n0)%nat /\ (snd bmu < n1)%nat /\
  (forall x y, (x < n0)%nat -> (y < n1)%nat ->
     sq_dist (cell W (fst bmu) (snd bmu)) v <= sq_dist (cell W x y) v) /\
  (forall x y, (x < n0)%nat -> (y < n1)%nat -> scan_before (x, y) bmu ->
     sq_dist (cell W (fst bmu) (snd bmu)) v < sq_dist (cell W x y) v).

(** A generator that only yields 0, for the worked examples, and a
    2 x 2 lattice whose cells all hold the vector [[7]]. *)
Definition zero_rng : nat -> Z := fun _ => 0%Z.

(** The object that [SOM(1, 1, 3, 1, 1)] constructs from [zero_rng]: one
    cell, holding [[0; 0; 0]]. *)
Definition unit_lattice : SOM :=
  mkSOM (randint zero_rng 1 1 3) 1 (3 / 2) (1 / ln (3 / 2)) 1.

Definition flat_lattice : SOM :=
  mkSOM (mk3 (2, 2, 1)%nat [[[7]; [7]]; [[7]; [7]]]) 1 1 1 1.

(** A consistent object of a given shape and number of iterations. *)
Definition ready (n0 n1 n2 : nat) (N : Z) (s : SOM) : Prop :=
  consistent s /\ shape3 (weights s) = (n0, n1, n2) /\ num_iter s = N.

(** The training schedule: epoch outermost, samples in their order. *)
Definition schedule (n : Z) (t_set : list (list R)) : list (Z * list R) :=
  flat_map (fun i => map (fun v => (i, v)) t_set) (range n).

(** One update seen from outside: the object after
    [self.weights += self.teach_row(v, i)]. *)
Definition updated (s : SOM) (iv : Z * list R) : SOM :=
  self (snd (teach_step (snd iv) (fst iv) (mkWorld s []))).

End Shape.

(** ** Derived notions *)

Module Derived.
Import Py Np Som Shape.


(** [w'] differs from [w] at most in the elements of the weights and in
    what was printed after the output of [w]. *)
Definition same_frame (w w' : world) : Prop :=
  num_iter (self w') = num_iter (self w) /\
  map_radius (self w') = map_radius (self w) /\
  t_const (self w') = t_const (self w) /\
  t_step (self w') = t_step (self w) /\
  shape3 (weights (self w')) = shape3 (weights (self w)) /\
  exists more, stdout w' = stdout w ++ more.

(** What [__init__] does, decided on the integer arguments. *)
Definition init_outcome (rng : nat -> Z) (x y d N ts : Z) : result SOM :=
  if (x <? 0)%Z || (y <? 0)%Z || (d <? 0)%Z then inl ValueError
  else
    let m := Z.max x (Z.max y d) in
    if (m =? 0)%Z then inl ValueError
    else if (m =? 2)%Z then inl ZeroDivisionError
    else inr (mkSOM (randint rng (Z.to_nat x) (Z.to_nat y) (Z.to_nat d))
                    N (IZR m / 2) (IZR N / ln (IZR m / 2)) ts).

(** The lines [teach] prints: the multiples of 10 below [n]. *)
Definition printed (n : Z) : list Z :=
  filter (fun i => (i mod 10 =? 0)%Z) (range n).

(** The update as a function of the object, put together from its parts:
    [teach_row] is evaluated on [s], its value is added to the weights of
    [s] by [iadd], and the sum becomes the weights.  ([s] is kept when one
    of the two raises.) *)
Definition apply_update (s : SOM) (iv : Z * list R) : SOM :=
  match fst (teach_row (snd iv) (fst iv) (mkWorld s [])) with
  | inl _ => s
  | inr delta =>
      match iadd (weights s) delta with
      | inl _ => s
      | inr w' => with_weights s w'
      end
  end.

(** The object before the [k]-th update of a schedule. *)
Definition before_update (sched : list (Z * list R)) (s : SOM) (k : nat)
    : SOM :=
  fold_left apply_update (firstn k sched) s.

End Derived.

(** ** The notebook's picture of the trained MNIST map

    The cell "Converting 3D SOM to 2D image": a 560 x 560 array of zeros
    into which the 784 weights of every node, reshaped to 28 x 28, are
    written at the node's place. *)

Module Script.
Import Py Np.

Inductive failure : Type :=
| IndexError
| Numpy (e : exn).

(** [a[i]] on the first axis: a negative index counts from the end. *)
Definition getitem {A : Type} (a : list A) (i : Z) : failure + A :=
  let n := Z.of_nat (length a) in
  if ((0 <=? i) && (i <? n))%Z then
    match nth_error a (Z.to_nat i) with
    | Some x => inr x
    | None => inl IndexError
    end
  else if ((- n <=? i) && (i <? 0))%Z then
    match nth_error a (Z.to_nat (n + i)) with
    | Some x => inr x
    | None => inl IndexError
    end
  else inl IndexError.

(** [np.zeros((r, c))] *)
Definition zeros (r c : nat) : ndarray2 R :=
  mk2 (r, c) (repeat (repeat 0 c) r).

(** [v.reshape((r, c))] of a vector, in C order. *)
Definition reshape (v : list R) (r c : nat) : failure + ndarray2 R :=
  if Nat.eqb (length v) (r * c)
  then inr (mk2 (r, c) (map (fun a => firstn c (skipn (a * c) v)) (seq 0 r)))
  else inl (Numpy ValueError).

(** The extent [start:stop] selects on an axis of extent [n], for
    non-negative bounds. *)
Definition slice_start (start n : nat) : nat := Nat.min start n.

Definition slice_len (start stop n : nat) : nat :=
  Nat.min stop n - Nat.min start n.

(** [m[r0:r1, c0:c1] = block].  The blocks written here are 28 x 28, so no
    extent of theirs is 1 and none is stretched: the selection must have
    the block's shape. *)
Definition setitem_block (m : ndarray2 R) (r0 r1 c0 c1 : nat)
    (block : ndarray2 R) : failure + ndarray2 R :=
  let '(nr, nc) := shape2 m in
  let '(bh, bw) := shape2 block in
  if Nat.eqb (slice_len r0 r1 nr) bh && Nat.eqb (slice_len c0 c1 nc) bw
  then
    let top := firstn (slice_start r0 nr) (data2 m) in
    let mid := firstn bh (skipn (slice_start r0 nr) (data2 m)) in
    let bottom := skipn (slice_start r0 nr + bh) (data2 m) in
    inr (mk2 (nr, nc)
             (top
              ++ map2 (fun row brow =>
                         firstn (slice_start c0 nc) row ++ brow
                         ++ skipn (slice_start c0 nc + bw) row)
                      mid (data2 block)
              ++ bottom))
  else inl (Numpy ValueError).

Fixpoint for_each {A : Type} (l : list A)
    (body : A -> ndarray2 R -> failure + ndarray2 R) (m : ndarray2 R)
    : failure + ndarray2 R :=
  match l with
  | [] => inr m
  | x :: l' =>
      match body x m with
      | inl e => inl e
      | inr m' => for_each l' body m'
      end
  end.

(** The body of the inner loop, for the node [(i, j)]. *)
Definition place_node (weights : ndarray3 R) (i j : Z) (map_matrix : ndarray2 R)
    : failure + ndarray2 R :=
  match getitem (data3 weights) i with
  | inl e => inl e
  | inr row =>
      match getitem row j with
      | inl e => inl e
      | inr node =>
          match reshape node 28 28 with
          | inl e => inl e
          | inr reshaped_weights =>
              setitem_block map_matrix
                (Z.to_nat (i * 28)) (Z.to_nat (i * 28 + 28))
                (Z.to_nat (j * 28)) (Z.to_nat (j * 28 + 28))
                reshaped_weights
          end
      end
  end.

(** The two loops, from [map_matrix = np.zeros((560, 560))]. *)
Definition map_image (weights : ndarray3 R) (map_w map_h : Z)
    : failure + ndarray2 R :=
  for_each (range map_w)
    (fun i => for_each (range map_h) (fun j => place_node weights i j))
    (zeros 560 560).

(** The pixel at row [r], column [c]. *)
Definition pixel (m : ndarray2 R) (r c : nat) : R :=
  nth c (nth r (data2 m) []) 0.

(** A picture whose rows all have its width. *)
Definition wf2 (m : ndarray2 R) : Prop :=
  length (data2 m) = fst (shape2 m) /\
  Forall (fun row => length row = snd (shape2 m)) (data2 m).

End Script.

(** ** The search for the best matching unit, over any arithmetic

    [get_bmu] subtracts, squares, sums along the last axis and compares.
    Here it is once more, over a number type that is a parameter, so that
    what is proved of it holds of the [float64] the notebook computes in
    as well as of the reals.  The sum along an axis is a parameter too:
    the order in which numpy adds is not fixed by the source. *)

Module Fp.
Import Py Np.

Record arith : Type := mkArith
  { num : Type;
    sub : num -> num -> num;
    mul : num -> num -> num;
    sum : list num -> num;
    geb : num -> num -> bool;
    isnan : num -> bool }.

(** What the search needs of [>=]: on numbers that are not NaN it is
    total and transitive, and a NaN is [>=] nothing. *)
Record ordered (A : arith) : Prop := mkOrdered
  { ge_total : forall x y,
      isnan A x = false -> isnan A y = false ->
      geb A x y = true \/ geb A y x = true;
    ge_trans : forall x y z,
      isnan A x = false -> isnan A y = false -> isnan A z = false ->
      geb A x y = true -> geb A y z = true -> geb A x z = true;
    ge_nan : forall x y, isnan A x = true -> geb A x y = false }.

Section Search.
Variable A : arith.

(** numpy's [argmin] loop on floats: the running minimum [mp] is replaced
    by an element [x] unless [mp <= x], and a NaN ends the scan. *)
Fixpoint argmin_scan (mp : num A) (min_ind i : nat) (l : list (num A))
    : nat :=
  match l with
  | [] => min_ind
  | x :: l' =>
      if geb A x mp then argmin_scan mp min_ind (S i) l'
      else if isnan A x then i
      else argmin_scan x i (S i) l'
  end.

Definition argmin (a : ndarray2 (num A)) : result nat :=
  match concat (data2 a) with
  | [] => inl ValueError
  | x :: l => if isnan A x then inr 0%nat else inr (argmin_scan x 0 1 l)
  end.

(** [np.sum((self.weights - vector) ** 2, 2)] *)
Definition distance (weights : ndarray3 (num A)) (vector : list (num A))
    : result (ndarray2 (num A)) :=
  match op_vec (sub A) weights vector with
  | inl e => inl e
  | inr diff =>
      let '(n0, n1, _) := shape3 diff in
      inr (mk2 (n0, n1)
               (map (map (fun c => sum A (map (fun x => mul A x x) c)))
                    (data3 diff)))
  end.

Definition get_bmu (weights : ndarray3 (num A)) (vector : list (num A))
    : result (nat * nat) :=
  match distance weights vector with
  | inl e => inl e
  | inr d =>
      match argmin d with
      | inl e => inl e
      | inr min_idx => inr (unravel_index min_idx (shape2 d))
      end
  end.

(** The vector of the cell at [(x, y)], and the distance to [v] that the
    search computes for a cell [c] of the length of [v]. *)
Definition cell (a : ndarray3 (num A)) (x y : nat) : list (num A) :=
  nth y (nth x (data3 a) []) [].

Definition cell_distance (c v : list (num A)) : num A :=
  sum A (map (fun x => mul A x x) (map2 (sub A) c v)).

(** No cell has a smaller computed distance to [v] than the cell at
    [bmu], and every cell scanned before it has a strictly greater one. *)
Definition first_minimum (W : ndarray3 (num A)) (v : list (num A))
    (n0 n1 : nat) (bmu : nat * nat) : Prop :=
  (forall x y, (x < n0)%nat -> (y < n1)%nat ->
     geb A (cell_distance (cell W x y) v)
           (cell_distance (cell W (fst bmu) (snd bmu)) v) = true) /\
  (forall x y, (x < n0)%nat -> (y < n1)%nat ->
     Shape.scan_before (x, y) bmu ->
     geb A (cell_distance (cell W (fst bmu) (snd bmu)) v)
           (cell_distance (cell W x y) v) = false).

End Search.

(** The reals: never NaN, exact operations. *)
Definition real : arith :=
  mkArith R Rminus Rmult (fold_right Rplus 0)
          (fun x y => if Rge_dec x y then true else false)
          (fun _ => false).



(** The rational number a finite float stands for, and the squared
    Euclidean distance of two vectors of floats computed on these
    rationals, without rounding. *)
Definition exact (x : float) : Q :=
  match Prim2SF x with
  | S754_finite s m e =>
      ((if s then -1 else 1) * inject_Z (Zpos m) * Qpower 2 e)%Q
  | _ => 0%Q
  end.






End Fp.

Import Py Np Som Shape Derived.
Local Open Scope som_scope.

(** ** Small cases *)

Example broadcast_same_extent : broadcast 3 3 = inr 3%nat.
Proof. reflexivity. Qed.

Example broadcast_stretch : broadcast 3 1 = inr 3%nat.
Proof. reflexivity. Qed.

Example broadcast_clash : broadcast 3 2 = inl ValueError.
Proof. reflexivity. Qed.

Example unravel_index_5 : unravel_index 5 (2, 3)%nat = (1, 2)%nat.
Proof. reflexivity. Qed.

Example range_3 : range 3 = [0; 1; 2]%Z.
Proof. reflexivity. Qed.

Example range_negative : range (-4) = [].
Proof. reflexivity. Qed.

Example schedule_2_2 :
  schedule 2 [[1]; [2]]
  = [(0%Z, [1]); (0%Z, [2]); (1%Z, [1]); (1%Z, [2])].
Proof. reflexivity. Qed.

Example argmin_tie : argmin (mk2 (2, 2)%nat [[3; 1]; [1; 2]]) = inr 1%nat.
Proof.
  unfold argmin. simpl.
  repeat match goal with
         | |- context [Rlt_dec ?a ?b] => destruct (Rlt_dec a b); try lra
         end.
  reflexivity.
Qed.

Example argmin_empty : argmin (mk2 (0, 2)%nat []) = inl ValueError.
Proof. reflexivity. Qed.

Example init_negative_size :
  __init__ zero_rng (-1) 2 3 10 1 = inl ValueError.
Proof. reflexivity. Qed.

Example grid_dist_corner : grid_dist (1, 1)%nat 0 0 = 2%Z.
Proof. reflexivity. Qed.

(** ** Lists *)

Lemma map2_length {A B C : Type} (f : A -> B -> C) (a : list A) (b : list B) :
  length (map2 f a b) = Nat.min (length a) (length b).
Proof. unfold map2. now rewrite length_map, length_combine. Qed.

Lemma nth_map2 {A B C : Type} (f : A -> B -> C) :
  forall (a : list A) (b : list B) (i : nat) (d : C) (da : A) (db : B),
    (i < length a)%nat -> (i < length b)%nat ->
    nth i (map2 f a b) d = f (nth i a da) (nth i b db).
Proof.
  unfold map2. induction a as [|x a IH]; intros [|y b] i d da db Ha Hb;
    simpl in *; try lia.
  destruct i as [|i]; [reflexivity|]. apply IH; lia.
Qed.

Lemma map2_map_l {A A' B C : Type} (f : A' -> B -> C) (g : A -> A') :
  forall (a : list A) (b : list B),
    map2 f (map g a) b = map2 (fun x y => f (g x) y) a b.
Proof.
  unfold map2. induction a as [|x a IH]; intros [|y b]; simpl; try reflexivity.
  now rewrite IH.
Qed.

Lemma map2_same {A C : Type} (f : A -> A -> C) (a : list A) :
  map2 f a a = map (fun x => f x x) a.
Proof. unfold map2. induction a as [|x a IH]; simpl; [|rewrite IH]; reflexivity. Qed.

Lemma nth_map_seq {A : Type} (f : nat -> A) (n i : nat) (d : A) :
  (i < n)%nat -> nth i (map f (seq 0 n)) d = f i.
Proof.
  intros Hi. rewrite (nth_indep _ d (f 0%nat)) by now rewrite length_map, length_seq.
  rewrite map_nth. now rewrite seq_nth.
Qed.

Lemma bcast_same_length {A : Type} (f : A -> A -> A) (a b : list A) :
  length a = length b -> bcast f a b = map2 f a b.
Proof.
  unfold bcast. destruct b as [|y [|y' b]]; destruct a as [|x [|x' a]];
    simpl; intros H; try discriminate; reflexivity.
Qed.

Lemma bcast_scalar_l {A : Type} (f : A -> A -> A) (x : A) (c : list A) :
  bcast f [x] c = map (f x) c.
Proof. unfold bcast. destruct c as [|y [|y' c]]; reflexivity. Qed.

Lemma length_concat_rows {A : Type} (n1 : nat) (rows : list (list A)) :
  Forall (fun r => length r = n1) rows ->
  length (concat rows) = (length rows * n1)%nat.
Proof.
  induction 1 as [|r rows Hr _ IH]; simpl; [reflexivity|].
  rewrite length_app, IH, Hr. reflexivity.
Qed.

Lemma nth_concat_rows {A : Type} (n1 : nat) (d : A) :
  forall (rows : list (list A)) (x y : nat),
    Forall (fun r => length r = n1) rows ->
    (x < length rows)%nat -> (y < n1)%nat ->
    nth (x * n1 + y) (concat rows) d = nth y (nth x rows []) d.
Proof.
  induction rows as [|r rows IH]; intros x y Hall Hx Hy; simpl in Hx; [lia|].
  inversion Hall as [|? ? Hr Hrest]; subst. simpl concat.
  destruct x as [|x].
  - simpl. now rewrite app_nth1 by lia.
  - rewrite app_nth2 by (simpl; nia).
    replace (S x * length r + y - length r)%nat with (x * length r + y)%nat
      by (simpl; lia).
    simpl nth. apply IH; auto; lia.
Qed.

(** ** [argmin]: the first minimum *)

Lemma argmin_from_spec :
  forall (rest done : list R) (best_i : nat) (best : R),
    (best_i < length done)%nat ->
    nth best_i done 0 = best ->
    (forall j, (j < length done)%nat -> best <= nth j done 0) ->
    (forall j, (j < best_i)%nat -> best < nth j done 0) ->
    let r := argmin_from best_i best (length done) rest in
    (r < length (done ++ rest))%nat /\
    (forall j, (j < length (done ++ rest))%nat ->
               nth r (done ++ rest) 0 <= nth j (done ++ rest) 0) /\
    (forall j, (j < r)%nat ->
               nth r (done ++ rest) 0 < nth j (done ++ rest) 0).
Proof.
  induction rest as [|x rest IH]; intros done best_i best Hi Hb Hle Hlt; simpl.
  - rewrite app_nil_r, Hb. repeat split; auto.
  - assert (Hlen : length (done ++ [x]) = S (length done))
      by (rewrite length_app; simpl; lia).
    assert (Happ : done ++ x :: rest = (done ++ [x]) ++ rest)
      by (rewrite <- app_assoc; reflexivity).
    rewrite Happ, <- Hlen.
    destruct (Rlt_dec x best) as [Hx|Hx].
    + apply IH.
      * lia.
      * rewrite app_nth2 by lia. now rewrite Nat.sub_diag.
      * intros j Hj. destruct (Nat.eq_dec j (length done)) as [->|Hne].
        -- rewrite app_nth2 by lia. rewrite Nat.sub_diag. simpl. lra.
        -- rewrite app_nth1 by lia. specialize (Hle j ltac:(lia)). lra.
      * intros j Hj. rewrite app_nth1 by lia. specialize (Hle j Hj). lra.
    + apply IH.
      * lia.
      * now rewrite app_nth1 by lia.
      * intros j Hj. destruct (Nat.eq_dec j (length done)) as [->|Hne].
        -- rewrite app_nth2 by lia. rewrite Nat.sub_diag. simpl. lra.
        -- rewrite app_nth1 by lia. apply Hle. lia.
      * intros j Hj. rewrite app_nth1 by lia. now apply Hlt.
Qed.

Lemma argmin_first_min (x : R) (l : list R) :
  let r := argmin_from 0 x 1 l in
  (r < length (x :: l))%nat /\
  (forall j, (j < length (x :: l))%nat -> nth r (x :: l) 0 <= nth j (x :: l) 0) /\
  (forall j, (j < r)%nat -> nth r (x :: l) 0 < nth j (x :: l) 0).
Proof.
  apply (argmin_from_spec l [x] 0%nat x); simpl; auto.
  - intros j Hj. assert (j = 0%nat) as -> by lia. lra.
  - intros j Hj. lia.
Qed.

(** ** Well-formed arrays *)

Section WellFormed.
Context {A : Type} (a : ndarray3 A) (n0 n1 n2 : nat).
Hypothesis Hshape : shape3 a = (n0, n1, n2).
Hypothesis Hwf : wf3 a.

Lemma wf3_length : length (data3 a) = n0.
Proof. unfold wf3 in Hwf. rewrite Hshape in Hwf. tauto. Qed.

Lemma wf3_rows : Forall (fun row => length row = n1) (data3 a).
Proof.
  unfold wf3 in Hwf. rewrite Hshape in Hwf. destruct Hwf as [_ H].
  eapply Forall_impl; [|exact H]. simpl. tauto.
Qed.

Lemma wf3_row_length (x : nat) :
  (x < n0)%nat -> length (nth x (data3 a) []) = n1.
Proof.
  intros Hx. pose proof wf3_rows as H. rewrite Forall_forall in H.
  apply H, nth_In. now rewrite wf3_length.
Qed.

Lemma wf3_cell_length (x y : nat) :
  (x < n0)%nat -> (y < n1)%nat ->
  length (nth y (nth x (data3 a) []) []) = n2.
Proof.
  intros Hx Hy. unfold wf3 in Hwf. rewrite Hshape in Hwf.
  destruct Hwf as [Hl H]. rewrite Forall_forall in H.
  destruct (H (nth x (data3 a) [])) as [Hr Hc].
  { apply nth_In. lia. }
  rewrite Forall_forall in Hc. apply Hc, nth_In. lia.
Qed.
End WellFormed.

Lemma nth_map_row {A B : Type} (f : A -> B) (rows : list (list A)) (x : nat) :
  nth x (map (map f) rows) [] = map f (nth x rows []).
Proof. exact (map_nth (map f) rows [] x). Qed.

Lemma nth_map_map {A B : Type} (f : A -> B) (rows : list (list A))
    (x y : nat) (d : B) (d' : A) :
  (x < length rows)%nat -> (y < length (nth x rows []))%nat ->
  nth y (nth x (map (map f) rows) []) d = f (nth y (nth x rows []) d').
Proof.
  intros Hx Hy.
  change (@nil B) with (map f []). rewrite map_nth.
  rewrite (nth_indep _ d (f d')) by now rewrite length_map.
  apply map_nth.
Qed.

Lemma cell_dist_sq_dist (v c : list R) :
  length c = length v -> cell_dist v c = sq_dist c v.
Proof. intros H. unfold cell_dist, sq_dist. now rewrite bcast_same_length. Qed.

Lemma broadcast_same (n : nat) : broadcast n n = inr n.
Proof. unfold broadcast. now rewrite Nat.eqb_refl. Qed.

(** ** [get_bmu] *)

Lemma get_bmu_eq (v : list R) (w : world) (n0 n1 n2 d : nat) :
  shape3 (weights (self w)) = (n0, n1, n2) ->
  broadcast n2 (length v) = inr d ->
  get_bmu v w =
    (match concat (map (map (cell_dist v)) (data3 (weights (self w)))) with
     | [] => inl ValueError
     | x :: l => inr (unravel_index (argmin_from 0 x 1 l) (n0, n1))
     end, w).
Proof.
  intros Hs Hb. unfold get_bmu, bind, attr, lift, ret, op_vec.
  rewrite Hs, Hb. unfold argmin, sum_axis2, map_elts3. simpl.
  rewrite !map_map.
  replace (map (fun x => map _ (map _ (map _ x))) (data3 (weights (self w))))
    with (map (map (cell_dist v)) (data3 (weights (self w)))).
  - destruct (concat _); reflexivity.
  - apply map_ext. intros row. rewrite !map_map. reflexivity.
Qed.

Lemma get_bmu_shape_error (v : list R) (w : world) (n0 n1 n2 : nat) (e : exn) :
  shape3 (weights (self w)) = (n0, n1, n2) ->
  broadcast n2 (length v) = inl e ->
  get_bmu v w = (inl e, w).
Proof.
  intros Hs Hb. unfold get_bmu, bind, attr, lift, op_vec.
  now rewrite Hs, Hb.
Qed.

Section Bmu.
Variables (w : world) (v : list R) (n0 n1 n2 : nat).
Let W := weights (self w).
Hypothesis Hwf : wf3 W.
Hypothesis Hshape : shape3 W = (n0, n1, n2).
Hypothesis Hn0 : (0 < n0)%nat.
Hypothesis Hn1 : (0 < n1)%nat.
Hypothesis Hv : length v = n2.

Let dist := map (map (cell_dist v)) (data3 W).

Lemma dist_rows : Forall (fun r => length r = n1) dist.
Proof.
  unfold dist. rewrite Forall_map.
  eapply Forall_impl; [|exact (wf3_rows W n0 n1 n2 Hshape Hwf)].
  simpl. intros r Hr. now rewrite length_map.
Qed.

Lemma dist_length : length (concat dist) = (n0 * n1)%nat.
Proof.
  rewrite (length_concat_rows n1) by exact dist_rows.
  unfold dist. rewrite length_map.
  now rewrite (wf3_length W n0 n1 n2 Hshape Hwf).
Qed.

Lemma dist_at (x y : nat) :
  (x < n0)%nat -> (y < n1)%nat ->
  nth (x * n1 + y) (concat dist) 0 = sq_dist (cell W x y) v.
Proof.
  intros Hx Hy.
  pose proof (wf3_length W n0 n1 n2 Hshape Hwf) as Hl.
  pose proof (wf3_row_length W n0 n1 n2 Hshape Hwf x Hx) as Hr.
  rewrite (nth_concat_rows n1) by
    (auto using dist_rows; unfold dist; rewrite length_map; lia).
  unfold dist. rewrite (nth_map_map _ _ _ _ _ []) by lia.
  apply cell_dist_sq_dist. unfold cell.
  rewrite (wf3_cell_length W n0 n1 n2 Hshape Hwf) by assumption. now symmetry.
Qed.

Lemma get_bmu_spec :
  exists bmu,
    get_bmu v w = (inr bmu, w) /\
    (fst bmu < n0)%nat /\ (snd bmu < n1)%nat /\
    (forall x y, (x < n0)%nat -> (y < n1)%nat ->
       sq_dist (cell W (fst bmu) (snd bmu)) v <= sq_dist (cell W x y) v) /\
    (forall x y, (x < n0)%nat -> (y < n1)%nat -> scan_before (x, y) bmu ->
       sq_dist (cell W (fst bmu) (snd bmu)) v < sq_dist (cell W x y) v).
Proof.
  pose proof dist_length as Hlen.
  rewrite (get_bmu_eq v w n0 n1 n2 n2 Hshape)
    by (rewrite Hv; apply broadcast_same).
  fold W. fold dist.
  destruct (concat dist) as [|d0 l] eqn:E.
  { simpl in Hlen. nia. }
  destruct (argmin_first_min d0 l) as (Hr & Hmin & Hfirst).
  set (r := argmin_from 0 d0 1 l) in *.
  rewrite Hlen in Hr, Hmin.
  assert (Hbx : (r / n1 < n0)%nat) by (apply Nat.Div0.div_lt_upper_bound; lia).
  assert (Hby : (r mod n1 < n1)%nat) by (apply Nat.mod_upper_bound; lia).
  assert (Hflat : r = (r / n1 * n1 + r mod n1)%nat)
    by (rewrite Nat.mul_comm; apply Nat.div_mod_eq).
  exists (unravel_index r (n0, n1)). unfold unravel_index. simpl.
  split; [reflexivity|]. split; [exact Hbx|]. split; [exact Hby|].
  rewrite <- (dist_at _ _ Hbx Hby), <- Hflat. rewrite E.
  split.
  - intros x y Hx Hy. rewrite <- (dist_at x y Hx Hy). rewrite E.
    apply Hmin. nia.
  - intros x y Hx Hy Hbefore. rewrite <- (dist_at x y Hx Hy). rewrite E.
    apply Hfirst. unfold scan_before in Hbefore. simpl in Hbefore.
    rewrite Hflat. destruct Hbefore as [Hlt|[Heq Hlt]]; nia.
Qed.
End Bmu.

(** ** [get_bmu_dist] *)

Lemma map2_repeat_r {A B C : Type} (f : A -> B -> C) (c : B) :
  forall l : list A, map2 f l (repeat c (length l)) = map (fun x => f x c) l.
Proof.
  unfold map2. induction l as [|x l IH]; simpl; [|rewrite IH]; reflexivity.
Qed.

Lemma map2_repeat_l {A B C : Type} (f : A -> B -> C) (c : A) :
  forall l : list B, map2 f (repeat c (length l)) l = map (f c) l.
Proof.
  unfold map2. induction l as [|x l IH]; simpl; [|rewrite IH]; reflexivity.
Qed.

Lemma arange_length (n : nat) : length (arange n) = n.
Proof. unfold arange. now rewrite length_map, length_seq. Qed.

Lemma coords_eq (n0 n1 : nat) :
  map2 (map2 (fun x y : Z => [x; y]))
       (map (fun i => repeat i n1) (arange n0)) (repeat (arange n1) n0)
  = map (fun i => map (fun j => [i; j]) (arange n1)) (arange n0).
Proof.
  rewrite map2_map_l.
  replace (repeat (arange n1) n0)
    with (repeat (arange n1) (length (arange n0)))
    by now rewrite arange_length.
  rewrite map2_repeat_r.
  apply map_ext. intros i.
  replace (repeat i n1) with (repeat i (length (arange n1)))
    by now rewrite arange_length.
  apply map2_repeat_l.
Qed.

Lemma get_bmu_dist_eq (v : list R) (w : world) (n0 n1 n2 : nat)
    (bmu : nat * nat) :
  shape3 (weights (self w)) = (n0, n1, n2) ->
  get_bmu v w = (inr bmu, w) ->
  get_bmu_dist v w =
    (inr (mk2 (n0, n1)
              (map (fun x => map (fun y => grid_dist bmu x y) (seq 0 n1))
                   (seq 0 n0))), w).
Proof.
  intros Hs Hb. unfold get_bmu_dist, bind, attr. rewrite Hs, Hb.
  unfold lift, ret, op_vec, dstack. simpl.
  unfold sum_axis2, map_elts3. simpl. rewrite coords_eq.
  unfold arange. rewrite !map_map. do 3 f_equal.
  apply map_ext. intros x. rewrite !map_map. reflexivity.
Qed.

Lemma get_bmu_dist_error (v : list R) (w : world) (e : exn) :
  get_bmu v w = (inl e, w) -> get_bmu_dist v w = (inl e, w).
Proof.
  intros Hb. unfold get_bmu_dist, bind, attr.
  destruct (shape3 (weights (self w))) as [[x y] rgb]. now rewrite Hb.
Qed.

(** ** [get_nbhood_radius] and [teach_row] *)

Lemma truediv_ok (a b : R) : b <> 0 -> truediv a b = inr (a / b).
Proof. intros H. unfold truediv. now destruct (Req_dec_T b 0). Qed.

Lemma truediv_zero (a : R) : truediv a 0 = inl ZeroDivisionError.
Proof. unfold truediv. destruct (Req_dec_T 0 0); [reflexivity|contradiction]. Qed.

Lemma math_log_ok (x : R) : 0 < x -> math_log x = inr (ln x).
Proof. intros H. unfold math_log. destruct (Rle_dec x 0); [lra|reflexivity]. Qed.

Lemma math_log_error (x : R) : x <= 0 -> math_log x = inl ValueError.
Proof. intros H. unfold math_log. destruct (Rle_dec x 0); [reflexivity|lra]. Qed.

Lemma get_nbhood_radius_eq (i : Z) (w : world) :
  t_const (self w) <> 0 ->
  get_nbhood_radius i w = (inr (radius_at (self w) i), w).
Proof.
  intros H. unfold get_nbhood_radius, bind, attr, lift, ret.
  now rewrite (truediv_ok _ _ H).
Qed.

Lemma get_nbhood_radius_zero (i : Z) (w : world) :
  t_const (self w) = 0 ->
  get_nbhood_radius i w = (inl ZeroDivisionError, w).
Proof.
  intros H. unfold get_nbhood_radius, bind, attr, lift, ret.
  now rewrite H, truediv_zero.
Qed.

Lemma nbhood_radius_neq_0 (s : SOM) (i : Z) :
  map_radius s <> 0 -> 2 * radius_at s i ^ 2 <> 0.
Proof.
  intros H. unfold radius_at.
  pose proof (exp_pos (IZR (- i) / t_const s)) as He.
  assert (map_radius s * exp (IZR (- i) / t_const s) <> 0) by nra.
  nra.
Qed.

Lemma teach_row_eq (v : list R) (i : Z) (w : world) (n0 n1 n2 d : nat)
    (bmu : nat * nat) :
  shape3 (weights (self w)) = (n0, n1, n2) ->
  t_const (self w) <> 0 ->
  num_iter (self w) <> 0%Z ->
  get_bmu v w = (inr bmu, w) ->
  broadcast (length v) n2 = inr d ->
  teach_row v i w =
    (inr (expand_mul
            (mk2 (n0, n1) (theta_rows (self w) i bmu n0 n1))
            (mk3 (n0, n1, d)
                 (map (map (fun c => bcast Rminus v c))
                      (data3 (weights (self w)))))), w).
Proof.
  intros Hs Ht Hn Hb Hd. unfold teach_row, bind.
  rewrite (get_nbhood_radius_eq i w Ht).
  rewrite (get_bmu_dist_eq v w n0 n1 n2 bmu Hs Hb).
  unfold attr, lift, ret, vec_op.
  rewrite truediv_ok by (now apply not_0_IZR).
  rewrite Hs, Hd. unfold map_elts2, theta_rows, theta_at.
  cbn [shape2 data2]. rewrite !map_map.
  match goal with
  | |- (inr (expand_mul ?a _), _) = (inr (expand_mul ?b _), _) =>
      replace a with b; [reflexivity|]
  end.
  f_equal. apply map_ext. intros x. now rewrite !map_map.
Qed.

Lemma teach_row_bmu_error (v : list R) (i : Z) (w : world) (e : exn) :
  t_const (self w) <> 0 ->
  get_bmu v w = (inl e, w) ->
  teach_row v i w = (inl e, w).
Proof.
  intros Ht Hb. unfold teach_row, bind.
  rewrite (get_nbhood_radius_eq i w Ht).
  now rewrite (get_bmu_dist_error v w e Hb).
Qed.

(** ** One update: [self.weights += self.teach_row(v, i)] *)

Lemma teach_step_eq (v : list R) (i : Z) (w : world) (n0 n1 n2 : nat)
    (bmu : nat * nat) :
  shape3 (weights (self w)) = (n0, n1, n2) ->
  t_const (self w) <> 0 ->
  num_iter (self w) <> 0%Z ->
  get_bmu v w = (inr bmu, w) ->
  broadcast (length v) n2 = inr n2 ->
  teach_step v i w =
    (inr tt,
     mkWorld (with_weights (self w)
                (mk3 (n0, n1, n2) (nudged_rows (self w) i v bmu n0 n1)))
             (stdout w)).
Proof.
  intros Hs Ht Hn Hb Hv. unfold teach_step, bind.
  unfold attr. cbv beta iota.
  rewrite (teach_row_eq v i w n0 n1 n2 n2 bmu Hs Ht Hn Hb Hv).
  unfold lift, iadd, expand_mul. cbn [shape3 data3 shape2 data2].
  rewrite Hs, Nat.eqb_refl. reflexivity.
Qed.

Lemma Forall_map2 {A B C : Type} (P : A -> Prop) (Q : B -> Prop)
    (S : C -> Prop) (f : A -> B -> C) :
  (forall x y, P x -> Q y -> S (f x y)) ->
  forall a b, Forall P a -> Forall Q b -> Forall S (map2 f a b).
Proof.
  intros Hf. unfold map2. induction a as [|x a IH]; intros b Ha Hb.
  - constructor.
  - destruct b as [|y b]; [constructor|].
    inversion Ha; inversion Hb; subst. simpl. constructor; auto.
Qed.

Lemma theta_rows_length (s : SOM) (i : Z) (bmu : nat * nat) (n0 n1 : nat) :
  length (theta_rows s i bmu n0 n1) = n0.
Proof. unfold theta_rows. now rewrite length_map, length_seq. Qed.

Lemma theta_rows_wf (s : SOM) (i : Z) (bmu : nat * nat) (n0 n1 : nat) :
  Forall (fun r => length r = n1) (theta_rows s i bmu n0 n1).
Proof.
  unfold theta_rows. rewrite Forall_map, Forall_forall. intros x _.
  now rewrite length_map, length_seq.
Qed.

Lemma theta_rows_nth (s : SOM) (i : Z) (bmu : nat * nat) (n0 n1 x y : nat) :
  (x < n0)%nat -> (y < n1)%nat ->
  nth y (nth x (theta_rows s i bmu n0 n1) []) 0 = theta_at s i bmu x y.
Proof.
  intros Hx Hy. unfold theta_rows.
  rewrite (nth_map_seq _ n0 x) by assumption.
  now rewrite (nth_map_seq _ n1 y).
Qed.

Section Update.
Variables (s : SOM) (i : Z) (v : list R) (bmu : nat * nat) (n0 n1 n2 : nat).
Let W := weights s.
Hypothesis Hshape : shape3 W = (n0, n1, n2).
Hypothesis Hwf : wf3 W.
Hypothesis Hv : length v = n2.

Lemma weights_rows_wf : rows_wf n1 n2 (data3 W).
Proof. unfold wf3 in Hwf. rewrite Hshape in Hwf. apply Hwf. Qed.

Lemma delta_rows_length : length (delta_rows s i v bmu n0 n1) = n0.
Proof.
  unfold delta_rows. rewrite map2_length, theta_rows_length, length_map.
  fold W. rewrite (wf3_length W n0 n1 n2 Hshape Hwf). apply Nat.min_id.
Qed.

Lemma diff_rows_wf :
  rows_wf n1 n2 (map (map (fun c => bcast Rminus v c)) (data3 W)).
Proof.
  unfold rows_wf. rewrite Forall_map.
  eapply Forall_impl; [|exact weights_rows_wf].
  simpl. intros row [Hr Hc]. split; [now rewrite length_map|].
  rewrite Forall_map. eapply Forall_impl; [|exact Hc].
  simpl. intros c Hlen.
  rewrite bcast_same_length by lia. rewrite map2_length. lia.
Qed.

Lemma delta_rows_wf : rows_wf n1 n2 (delta_rows s i v bmu n0 n1).
Proof.
  unfold delta_rows, rows_wf.
  apply (Forall_map2 (fun r => length r = n1)
           (fun row : list (list R) =>
              length row = n1 /\ Forall (fun c => length c = n2) row));
    [|apply theta_rows_wf|exact diff_rows_wf].
  intros trow row Ht [Hr Hc]. split.
  - rewrite map2_length, Ht, Hr. apply Nat.min_id.
  - apply (Forall_map2 (fun _ => True) (fun c : list R => length c = n2));
      [| apply Forall_forall; auto | exact Hc].
    intros th c _ Hlen. now rewrite bcast_scalar_l, length_map.
Qed.

Lemma nudged_rows_length : length (nudged_rows s i v bmu n0 n1) = n0.
Proof.
  unfold nudged_rows. rewrite map2_length, delta_rows_length.
  fold W. rewrite (wf3_length W n0 n1 n2 Hshape Hwf). apply Nat.min_id.
Qed.

Lemma nudged_rows_wf : rows_wf n1 n2 (nudged_rows s i v bmu n0 n1).
Proof.
  unfold nudged_rows, rows_wf.
  apply (Forall_map2
           (fun row : list (list R) =>
              length row = n1 /\ Forall (fun c => length c = n2) row)
           (fun row : list (list R) =>
              length row = n1 /\ Forall (fun c => length c = n2) row));
    [|exact weights_rows_wf|exact delta_rows_wf].
  intros row drow [Hr Hc] [Hdr Hdc]. split.
  - rewrite map2_length. lia.
  - apply (Forall_map2 (fun c : list R => length c = n2)
             (fun c : list R => length c = n2)); [|exact Hc|exact Hdc].
    intros c dc H1 H2.
    rewrite bcast_same_length by lia. rewrite map2_length. lia.
Qed.

Lemma nudged_wf3 : wf3 (mk3 (n0, n1, n2) (nudged_rows s i v bmu n0 n1)).
Proof. split; [apply nudged_rows_length|apply nudged_rows_wf]. Qed.

(** The cell at [(x, y)] of the array returned by [teach_row], and of the
    array stored next. *)
Lemma delta_cell (x y : nat) :
  (x < n0)%nat -> (y < n1)%nat ->
  nth y (nth x (delta_rows s i v bmu n0 n1) []) [] =
    map (Rmult (theta_at s i bmu x y)) (map2 Rminus v (cell W x y)).
Proof.
  intros Hx Hy. unfold delta_rows.
  pose proof (wf3_length W n0 n1 n2 Hshape Hwf) as Hl.
  pose proof (wf3_row_length W n0 n1 n2 Hshape Hwf x Hx) as Hr.
  pose proof (wf3_cell_length W n0 n1 n2 Hshape Hwf x y Hx Hy) as Hc.
  rewrite (nth_map2 _ _ _ x [] [] [])
    by (rewrite ?theta_rows_length, ?length_map; fold W; lia).
  rewrite nth_map_row. fold W.
  rewrite (nth_map2 _ _ _ y [] 0 []).
  - rewrite bcast_scalar_l, theta_rows_nth by assumption.
    rewrite (nth_indep _ [] (bcast Rminus v [])) by (rewrite length_map; lia).
    rewrite map_nth. rewrite bcast_same_length by lia. reflexivity.
  - pose proof (theta_rows_wf s i bmu n0 n1) as Ht.
    rewrite Forall_forall in Ht. rewrite Ht; [assumption|].
    apply nth_In. now rewrite theta_rows_length.
  - rewrite length_map. lia.
Qed.

Lemma nudged_cell (x y : nat) :
  (x < n0)%nat -> (y < n1)%nat ->
  nth y (nth x (nudged_rows s i v bmu n0 n1) []) [] =
    map2 Rplus (cell W x y)
      (map (Rmult (theta_at s i bmu x y)) (map2 Rminus v (cell W x y))).
Proof.
  intros Hx Hy. unfold nudged_rows.
  pose proof (wf3_length W n0 n1 n2 Hshape Hwf) as Hl.
  pose proof (wf3_row_length W n0 n1 n2 Hshape Hwf x Hx) as Hr.
  pose proof (wf3_cell_length W n0 n1 n2 Hshape Hwf x y Hx Hy) as Hc.
  pose proof delta_rows_wf as Hd. unfold rows_wf in Hd.
  rewrite Forall_forall in Hd.
  destruct (Hd (nth x (delta_rows s i v bmu n0 n1) [])) as [Hdr _].
  { apply nth_In. rewrite delta_rows_length. exact Hx. }
  rewrite (nth_map2 _ _ _ x [] [] []) by (rewrite ?delta_rows_length; fold W; lia).
  fold W. rewrite (nth_map2 _ _ _ y [] [] []) by lia.
  rewrite delta_cell by assumption.
  rewrite bcast_same_length; [reflexivity|].
  fold (cell W x y). rewrite length_map, map2_length.
  unfold cell. lia.
Qed.
End Update.

(** ** The methods read [self] only *)

Lemma get_bmu_pure (v : list R) (w : world) :
  get_bmu v w = (fst (get_bmu v (mkWorld (self w) [])), w).
Proof.
  unfold get_bmu, bind, attr, lift, ret. simpl.
  destruct (op_vec Rminus (weights (self w)) v) as [e|diff]; [reflexivity|].
  destruct (argmin _); reflexivity.
Qed.

Lemma get_bmu_frame (v : list R) (w : world) : snd (get_bmu v w) = w.
Proof. now rewrite get_bmu_pure. Qed.

Lemma get_bmu_dist_frame (v : list R) (w : world) :
  snd (get_bmu_dist v w) = w.
Proof.
  unfold get_bmu_dist, bind, attr.
  destruct (shape3 (weights (self w))) as [[x y] rgb].
  rewrite get_bmu_pure.
  destruct (fst (get_bmu v _)) as [e|bmu]; [reflexivity|].
  unfold lift, ret. destruct (op_vec Z.sub _ _); reflexivity.
Qed.

Lemma get_nbhood_radius_frame (i : Z) (w : world) :
  snd (get_nbhood_radius i w) = w.
Proof.
  unfold get_nbhood_radius, bind, attr, lift, ret.
  destruct (truediv _ _); reflexivity.
Qed.

Lemma teach_row_frame (v : list R) (i : Z) (w : world) :
  snd (teach_row v i w) = w.
Proof.
  unfold teach_row, bind.
  pose proof (get_nbhood_radius_frame i w) as Hr.
  destruct (get_nbhood_radius i w) as [[e|r] w1]; simpl in Hr; subst w1;
    [reflexivity|].
  pose proof (get_bmu_dist_frame v w) as Hd.
  destruct (get_bmu_dist v w) as [[e|d] w1]; simpl in Hd; subst w1;
    [reflexivity|].
  unfold attr, lift, ret.
  destruct (truediv _ _); [reflexivity|].
  destruct (vec_op Rminus v _); reflexivity.
Qed.

(** ** A consistent object takes every update *)

Section Step.
Variables (n0 n1 n2 : nat) (N : Z).
Hypothesis Hn0 : (0 < n0)%nat.
Hypothesis Hn1 : (0 < n1)%nat.
Hypothesis HN : N <> 0%Z.

Lemma teach_step_ready (s : SOM) (out : list Z) (i : Z) (v : list R) :
  ready n0 n1 n2 N s -> length v = n2 ->
  exists bmu,
    get_bmu v (mkWorld s out) = (inr bmu, mkWorld s out) /\
    (fst bmu < n0)%nat /\ (snd bmu < n1)%nat /\
    teach_step v i (mkWorld s out) =
      (inr tt,
       mkWorld (with_weights s
                  (mk3 (n0, n1, n2) (nudged_rows s i v bmu n0 n1))) out) /\
    ready n0 n1 n2 N
      (with_weights s (mk3 (n0, n1, n2) (nudged_rows s i v bmu n0 n1))).
Proof.
  intros (Hc & Hs & Hnum) Hv. destruct Hc as [Hwf Hrad Htc].
  destruct (get_bmu_spec (mkWorld s out) v n0 n1 n2 Hwf Hs Hn0 Hn1 Hv)
    as (bmu & Hb & Hbx & Hby & _).
  exists bmu. split; [exact Hb|]. split; [exact Hbx|]. split; [exact Hby|].
  assert (Hnz : num_iter s <> 0%Z) by congruence.
  split.
  - apply (teach_step_eq v i (mkWorld s out) n0 n1 n2 bmu); auto.
    rewrite Hv. apply broadcast_same.
  - split; [|split; [reflexivity|exact Hnum]].
    constructor; simpl; auto.
    apply (nudged_wf3 s i v bmu n0 n1 n2 Hs Hwf Hv).
Qed.

Lemma updated_eq (s : SOM) (i : Z) (v : list R) (out : list Z) :
  ready n0 n1 n2 N s -> length v = n2 ->
  teach_step v i (mkWorld s out) = (inr tt, mkWorld (updated s (i, v)) out) /\
  ready n0 n1 n2 N (updated s (i, v)).
Proof.
  intros Hr Hv. unfold updated. simpl.
  destruct (teach_step_ready s [] i v Hr Hv) as (b0 & Hb0 & _ & _ & E0 & R0).
  destruct (teach_step_ready s out i v Hr Hv) as (b & Hb & _ & _ & E & _).
  rewrite get_bmu_pure in Hb0, Hb. simpl in Hb0, Hb.
  assert (b = b0) as -> by congruence.
  rewrite E0, E. simpl. auto.
Qed.
End Step.

(** ** Loops *)

Lemma for_ext {A : Type} (f g : A -> M unit) (l : list A) :
  (forall x, f x = g x) -> for_ l f = for_ l g.
Proof.
  intros H. induction l as [|x l IH]; simpl; [reflexivity|].
  now rewrite H, IH.
Qed.

Lemma for_map {A B : Type} (h : A -> B) (f : B -> M unit) (l : list A) :
  for_ (map h l) f = for_ l (fun x => f (h x)).
Proof. induction l as [|x l IH]; simpl; [|rewrite IH]; reflexivity. Qed.

Lemma for_seq_nth {A : Type} (d : A) (f : A -> M unit) (l : list A) :
  for_ (seq 0 (length l)) (fun k => f (nth k l d)) = for_ l f.
Proof.
  induction l as [|x l IH]; simpl; [reflexivity|].
  rewrite <- seq_shift, for_map. simpl. now rewrite IH.
Qed.

Lemma for_range_index {A : Type} (d : A) (f : A -> M unit) (l : list A) :
  for_ (range (Z.of_nat (length l))) (fun j => f (nth (Z.to_nat j) l d))
  = for_ l f.
Proof.
  unfold range. rewrite Nat2Z.id, for_map.
  rewrite <- (for_seq_nth d f l). apply for_ext.
  intros k. now rewrite Nat2Z.id.
Qed.

Lemma teach_eq (t_set : list (list R)) (w : world) :
  teach t_set w =
  for_ (range (num_iter (self w)))
       (fun i =>
          (if (i mod 10 =? 0)%Z then print i else ret tt) ;;
          for_ t_set (fun v => teach_step v i)) w.
Proof.
  unfold teach, bind at 1, attr. cbv beta iota.
  apply (f_equal (fun m : M unit => m w)). apply for_ext. intros i.
  now rewrite (for_range_index [] (fun v => teach_step v i) t_set).
Qed.

(** ** The training loop follows the schedule *)

Section Training.
Variables (n0 n1 n2 : nat) (N : Z) (t_set : list (list R)).
Hypothesis Hn0 : (0 < n0)%nat.
Hypothesis Hn1 : (0 < n1)%nat.
Hypothesis HN : N <> 0%Z.

Lemma epoch_run (i : Z) :
  forall (l : list (list R)) (s : SOM) (out : list Z),
    Forall (fun v => length v = n2) l ->
    ready n0 n1 n2 N s ->
    for_ l (fun v => teach_step v i) (mkWorld s out) =
      (inr tt, mkWorld (fold_left updated (map (pair i) l) s) out) /\
    ready n0 n1 n2 N (fold_left updated (map (pair i) l) s).
Proof.
  induction l as [|v l IH]; intros s out Hl Hr; simpl.
  - split; [reflexivity|exact Hr].
  - apply Forall_cons_iff in Hl. destruct Hl as [Hv Hl'].
    destruct (updated_eq n0 n1 n2 N Hn0 Hn1 HN s i v out Hr Hv) as [E R'].
    unfold bind. rewrite E. apply IH; assumption.
Qed.

Hypothesis Hsamples : Forall (fun v => length v = n2) t_set.

Lemma epochs_run :
  forall (epochs : list Z) (s : SOM) (out : list Z),
    ready n0 n1 n2 N s ->
    for_ epochs
         (fun i =>
            (if (i mod 10 =? 0)%Z then print i else ret tt) ;;
            for_ t_set (fun v => teach_step v i)) (mkWorld s out) =
      (inr tt,
       mkWorld
         (fold_left updated
            (flat_map (fun i => map (pair i) t_set) epochs) s)
         (out ++ filter (fun i => (i mod 10 =? 0)%Z) epochs)).
Proof.
  induction epochs as [|i epochs IH]; intros s out Hr; simpl.
  - now rewrite app_nil_r.
  - rewrite fold_left_app. unfold bind at 1. unfold bind at 1.
    destruct (i mod 10 =? 0)%Z; unfold print, ret; cbv beta iota; simpl self;
      simpl stdout.
    + destruct (epoch_run i t_set s (out ++ [i]) Hsamples Hr) as [E R'].
      rewrite E. rewrite (IH _ _ R'). now rewrite <- app_assoc.
    + destruct (epoch_run i t_set s out Hsamples Hr) as [E R'].
      rewrite E. now rewrite (IH _ _ R').
Qed.
End Training.

Lemma schedule_length (n : Z) (t_set : list (list R)) :
  length (schedule n t_set) = (Z.to_nat n * length t_set)%nat.
Proof.
  unfold schedule, range. rewrite flat_map_concat_map.
  rewrite (length_concat_rows (length t_set)).
  - now rewrite !length_map, length_seq.
  - rewrite Forall_map, Forall_forall. intros i _. now rewrite length_map.
Qed.

Lemma schedule_nth (n : Z) (t_set : list (list R)) (t j : nat) :
  (t < Z.to_nat n)%nat -> (j < length t_set)%nat ->
  nth (t * length t_set + j) (schedule n t_set) (0%Z, []) =
    (Z.of_nat t, nth j t_set []).
Proof.
  intros Ht Hj. unfold schedule, range. rewrite flat_map_concat_map.
  rewrite (nth_concat_rows (length t_set)).
  - rewrite map_map, (nth_map_seq _ _ t) by assumption.
    rewrite (nth_indep _ _ (Z.of_nat t, [])) by now rewrite length_map.
    apply (map_nth (pair (Z.of_nat t))).
  - rewrite Forall_map, Forall_forall. intros i _. now rewrite length_map.
  - now rewrite !length_map, length_seq.
  - assumption.
Qed.

(** ** [__init__] *)

Lemma randint_wf (rng : nat -> Z) (x y d : nat) : wf3 (randint rng x y d).
Proof.
  unfold wf3, randint. simpl. split.
  - now rewrite length_map, length_seq.
  - rewrite Forall_map, Forall_forall. intros i _. split.
    + now rewrite length_map, length_seq.
    + rewrite Forall_map, Forall_forall. intros j _.
      now rewrite length_map, length_seq.
Qed.

Section Construction.
Variables (rng : nat -> Z) (x_size y_size dimen N ts : Z).
Let m : nat :=
  Nat.max (Z.to_nat x_size) (Nat.max (Z.to_nat y_size) (Z.to_nat dimen)).
Let W : ndarray3 R :=
  randint rng (Z.to_nat x_size) (Z.to_nat y_size) (Z.to_nat dimen).

Lemma init_negative :
  (x_size < 0 \/ y_size < 0 \/ dimen < 0)%Z ->
  __init__ rng x_size y_size dimen N ts = inl ValueError.
Proof.
  intros H. unfold __init__.
  destruct (x_size <? 0)%Z eqn:Ex; [reflexivity|].
  destruct (y_size <? 0)%Z eqn:Ey; [reflexivity|].
  destruct (dimen <? 0)%Z eqn:Ed; [reflexivity|].
  apply Z.ltb_ge in Ex, Ey, Ed. lia.
Qed.

Hypothesis Hx : (0 <= x_size)%Z.
Hypothesis Hy : (0 <= y_size)%Z.
Hypothesis Hd : (0 <= dimen)%Z.

Lemma init_unfold :
  __init__ rng x_size y_size dimen N ts =
    match math_log (IZR (Z.of_nat m) / 2) with
    | inl e => inl e
    | inr l =>
        match truediv (IZR N) l with
        | inl e => inl e
        | inr tc => inr (mkSOM W N (IZR (Z.of_nat m) / 2) tc ts)
        end
    end.
Proof.
  unfold __init__.
  destruct (x_size <? 0)%Z eqn:Ex; [apply Z.ltb_lt in Ex; lia|].
  destruct (y_size <? 0)%Z eqn:Ey; [apply Z.ltb_lt in Ey; lia|].
  destruct (dimen <? 0)%Z eqn:Ed; [apply Z.ltb_lt in Ed; lia|].
  reflexivity.
Qed.

Lemma init_radius_0 :
  m = 0%nat -> __init__ rng x_size y_size dimen N ts = inl ValueError.
Proof.
  intros Hm. rewrite init_unfold, Hm. simpl Z.of_nat.
  rewrite math_log_error; [reflexivity|lra].
Qed.

Lemma init_radius_1 :
  m = 2%nat -> __init__ rng x_size y_size dimen N ts = inl ZeroDivisionError.
Proof.
  intros Hm. rewrite init_unfold, Hm. simpl Z.of_nat.
  rewrite math_log_ok by lra.
  replace (2 / 2) with 1 by lra. rewrite ln_1. now rewrite truediv_zero.
Qed.

Lemma init_ok :
  m <> 0%nat -> m <> 2%nat ->
  __init__ rng x_size y_size dimen N ts =
    inr (mkSOM W N (IZR (Z.of_nat m) / 2)
               (IZR N / ln (IZR (Z.of_nat m) / 2)) ts).
Proof.
  intros H0 H2. rewrite init_unfold.
  assert (Hm : 0 < IZR (Z.of_nat m) / 2).
  { assert (0 < IZR (Z.of_nat m)) by (apply IZR_lt; lia). lra. }
  rewrite math_log_ok by exact Hm.
  rewrite truediv_ok; [reflexivity|].
  apply ln_neq_0; [|exact Hm].
  intros E. assert (IZR (Z.of_nat m) = 2) by lra.
  apply eq_IZR in H. lia.
Qed.

Lemma init_inv (s : SOM) :
  __init__ rng x_size y_size dimen N ts = inr s ->
  s = mkSOM W N (IZR (Z.of_nat m) / 2)
            (IZR N / ln (IZR (Z.of_nat m) / 2)) ts /\
  m <> 0%nat /\ m <> 2%nat.
Proof.
  intros H.
  destruct (Nat.eq_dec m 0) as [E0|E0];
    [rewrite (init_radius_0 E0) in H; discriminate|].
  destruct (Nat.eq_dec m 2) as [E2|E2];
    [rewrite (init_radius_1 E2) in H; discriminate|].
  rewrite (init_ok E0 E2) in H. inversion H. auto.
Qed.

Lemma init_consistent (s : SOM) :
  __init__ rng x_size y_size dimen N ts = inr s ->
  ready (Z.to_nat x_size) (Z.to_nat y_size) (Z.to_nat dimen) N s.
Proof.
  intros H. destruct (init_inv s H) as (-> & H0 & H2).
  assert (Hm : 0 < IZR (Z.of_nat m) / 2).
  { assert (0 < IZR (Z.of_nat m)) by (apply IZR_lt; lia). lra. }
  assert (Hln : ln (IZR (Z.of_nat m) / 2) <> 0).
  { apply ln_neq_0; [|exact Hm].
    intros E. assert (E' : IZR (Z.of_nat m) = 2) by lra.
    apply eq_IZR in E'. lia. }
  split; [|split; reflexivity].
  constructor; simpl.
  - apply randint_wf.
  - lra.
  - intros HN E. apply (not_0_IZR N HN).
    unfold Rdiv in E. apply Rmult_integral in E. destruct E as [E|E]; [exact E|].
    exfalso. revert E. now apply Rinv_neq_0_compat.
Qed.
End Construction.

Lemma init_success_nonneg (rng : nat -> Z) (x y d N ts : Z) (s : SOM) :
  __init__ rng x y d N ts = inr s -> (0 <= x /\ 0 <= y /\ 0 <= d)%Z.
Proof.
  intros H.
  destruct (Z_lt_ge_dec x 0) as [Hx|Hx];
    [rewrite init_negative in H by auto; discriminate|].
  destruct (Z_lt_ge_dec y 0) as [Hy|Hy];
    [rewrite init_negative in H by auto; discriminate|].
  destruct (Z_lt_ge_dec d 0) as [Hd|Hd];
    [rewrite init_negative in H by auto; discriminate|].
  lia.
Qed.

Lemma init_fields (rng : nat -> Z) (x y d N ts : Z) (s : SOM) :
  __init__ rng x y d N ts = inr s ->
  map_radius s = IZR (Z.max x (Z.max y d)) / 2 /\
  t_const s = IZR N / ln (map_radius s) /\
  num_iter s = N /\ t_step s = ts /\
  0 < map_radius s /\ map_radius s <> 1.
Proof.
  intros H. destruct (init_success_nonneg _ _ _ _ _ _ _ H) as (Hx & Hy & Hd).
  destruct (init_inv rng x y d N ts Hx Hy Hd s H) as (-> & H0 & H2). simpl.
  set (m := Nat.max (Z.to_nat x) (Nat.max (Z.to_nat y) (Z.to_nat d))) in *.
  replace (Z.max x (Z.max y d)) with (Z.of_nat m) by lia.
  assert (0 < IZR (Z.of_nat m)) by (apply IZR_lt; lia).
  repeat split; try lra.
  intros E. assert (E' : IZR (Z.of_nat m) = 2) by lra.
  apply eq_IZR in E'. lia.
Qed.

(** * The claims *)

(** ** Construction *)

(** C2.  [map_radius] is half the largest extent of [self.weights.shape],
    the vector dimensionality included: the call of the notebook's MNIST
    run, [SOM(20, 20, 784, 100, 1)], stores 392 and not
    [max(20, 20) / 2 = 10]. *)
Theorem map_radius_counts_dimen (rng : nat -> Z) :
  exists s,
    __init__ rng 20 20 784 100 1 = inr s /\
    map_radius s = 392 /\
    map_radius s <> IZR (Z.max 20 20) / 2.
Proof.
  destruct (__init__ rng 20 20 784 100 1) as [e|s] eqn:E.
  - exfalso. rewrite init_ok in E by lia. discriminate.
  - exists s. split; [reflexivity|].
    destruct (init_fields _ _ _ _ _ _ _ E) as (Hr & _).
    rewrite Hr. change (Z.max 20 (Z.max 20 784)) with 784%Z.
    change (Z.max 20 20) with 20%Z. split; lra.
Qed.

(** C7, as stated, fails: a lattice whose largest extent is 1 has
    [map_radius = 1/2 <= 1] and is constructed all the same, with a
    negative time constant. *)
Lemma init_accepts_radius_half :
  exists s,
    __init__ zero_rng 1 1 1 10 1 = inr s /\
    map_radius s <= 1 /\ t_const s < 0.
Proof.
  destruct (__init__ zero_rng 1 1 1 10 1) as [e|s] eqn:E.
  - exfalso. rewrite init_ok in E by lia. discriminate.
  - exists s. split; [reflexivity|].
    destruct (init_fields _ _ _ _ _ _ _ E) as (Hr & Ht & _).
    rewrite Ht, Hr. change (Z.max 1 (Z.max 1 1)) with 1%Z.
    split; [lra|].
    assert (Hln : ln (1 / 2) < 0).
    { rewrite <- ln_1. apply ln_increasing; lra. }
    assert (Hinv : / ln (1 / 2) < 0) by now apply Rinv_lt_0_compat.
    unfold Rdiv at 1. nra.
Qed.

(** C7, amended.  For sizes that are not negative, with [dimen] at most
    the larger extent of the grid (so that [map_radius] is
    [max(x_size, y_size) / 2]) and [map_radius <= 1], the larger extent of
    the grid is 0, 1 or 2.  When it is 0, [math.log] raises [ValueError];
    when it is 2 ([map_radius = 1]), the division raises
    [ZeroDivisionError]; in both cases no object is produced.  When it is
    1 ([map_radius = 1/2]), the object is produced, with the time constant
    [N / ln (1/2)]. *)
Theorem init_small_radius (rng : nat -> Z) (x y d N ts : Z) :
  (0 <= x)%Z -> (0 <= y)%Z -> (0 <= d)%Z ->
  (d <= Z.max x y)%Z ->
  IZR (Z.max x y) / 2 <= 1 ->
  (Z.max x y = 0 \/ Z.max x y = 1 \/ Z.max x y = 2)%Z /\
  (Z.max x y = 0%Z -> __init__ rng x y d N ts = inl ValueError) /\
  (Z.max x y = 2%Z -> __init__ rng x y d N ts = inl ZeroDivisionError) /\
  (Z.max x y = 1%Z ->
     exists s, __init__ rng x y d N ts = inr s /\
               map_radius s = 1 / 2 /\
               t_const s = IZR N / ln (1 / 2)).
Proof.
  intros Hx Hy Hd Hdm Hr.
  assert (Hm : (Z.max x y <= 2)%Z) by (apply le_IZR; lra).
  split; [lia|]. split; [|split].
  - intros H0. apply init_radius_0; lia.
  - intros H2. apply init_radius_1; lia.
  - intros H1.
    destruct (__init__ rng x y d N ts) as [e|s] eqn:E.
    + exfalso. rewrite init_ok in E by lia. discriminate.
    + exists s. split; [reflexivity|].
      destruct (init_fields _ _ _ _ _ _ _ E) as (Hrad & Ht & _).
      replace (Z.max x (Z.max y d)) with 1%Z in Hrad by lia.
      rewrite Ht, Hrad. split; reflexivity.
Qed.

(** [init_small_radius] at [SOM(2, 2, 1, 50, 1)], where [map_radius] is
    1. *)
Lemma init_small_radius_witness :
  __init__ zero_rng 2 2 1 50 1 = inl ZeroDivisionError.
Proof.
  assert (H2 : IZR (Z.max 2 2) / 2 <= 1)
    by (change (Z.max 2 2) with 2%Z; lra).
  destruct (init_small_radius zero_rng 2 2 1 50 1) as (_ & _ & H & _);
    [lia|lia|lia|lia|exact H2|].
  apply H. reflexivity.
Defined.

(** ** The time constant of a consistent object *)

Lemma ready_t_const (n0 n1 n2 : nat) (N : Z) (s : SOM) :
  ready n0 n1 n2 N s -> N <> 0%Z -> t_const s <> 0.
Proof. intros (Hc & _ & Hn) HN. apply Hc. congruence. Qed.

(** ** The best matching unit

    What [get_bmu] returns is proved of the search over any ordered
    arithmetic ([Fp]), of which the reals of the methods above and
    [float64] are instances. *)

Section FpSearch.
Variable A : Fp.arith.
Hypothesis Hord : Fp.ordered A.






Variables (W : ndarray3 (Fp.num A)) (v : list (Fp.num A)) (n0 n1 n2 : nat).
Hypothesis Hwf : wf3 W.
Hypothesis Hshape : shape3 W = (n0, n1, n2).
Hypothesis Hn0 : (0 < n0)%nat.
Hypothesis Hn1 : (0 < n1)%nat.
Hypothesis Hv : length v = n2.

Let dist : list (list (Fp.num A)) :=
  map (map (fun c => Fp.cell_distance A c v)) (data3 W).







End FpSearch.

(** ** [float64] is ordered *)






Lemma real_ordered : Fp.ordered Fp.real.
Proof.
  constructor; simpl.
  - intros x y _ _. destruct (Rge_dec x y); [now left|].
    destruct (Rge_dec y x); [now right|lra].
  - intros x y z _ _ _. destruct (Rge_dec x y); [|discriminate].
    destruct (Rge_dec y z); [|discriminate].
    destruct (Rge_dec x z); [reflexivity|lra].
  - intros x y H. discriminate.
Qed.

(** On the reals the generic search is the search of [Np.argmin]. *)
Lemma argmin_scan_real (l : list R) :
  forall mp min_ind i,
    Fp.argmin_scan Fp.real mp min_ind i l = argmin_from min_ind mp i l.
Proof.
  induction l as [|x l IH]; intros mp min_ind i; simpl; [reflexivity|].
  destruct (Rge_dec x mp); destruct (Rlt_dec x mp); try lra; apply IH.
Qed.

Lemma argmin_real (d : ndarray2 R) : Fp.argmin Fp.real d = argmin d.
Proof.
  unfold Fp.argmin, argmin. change (Fp.num Fp.real) with R.
  destruct (concat (data2 d)) as [|x l]; [reflexivity|].
  cbn [Fp.isnan Fp.real]. now rewrite argmin_scan_real.
Qed.

Lemma distance_real (W : ndarray3 R) (v : list R) :
  Fp.distance Fp.real W v
  = match op_vec Rminus W v with
    | inl e => inl e
    | inr diff => inr (sum_axis2 Rplus 0 (map_elts3 (fun x => x ^ 2) diff))
    end.
Proof.
  unfold Fp.distance. change (Fp.sub Fp.real) with Rminus.
  change (Fp.num Fp.real) with R.
  destruct (op_vec Rminus W v) as [e|diff]; [reflexivity|].
  unfold sum_axis2, map_elts3. cbn [shape3 data3].
  destruct (shape3 diff) as [[m0 m1] m2]. do 2 f_equal.
  rewrite map_map. apply map_ext. intros row. rewrite map_map.
  apply map_ext. intros c. cbn [Fp.sum Fp.mul Fp.real]. f_equal.
  apply map_ext. intros x. ring.
Qed.

Lemma get_bmu_real (v : list R) (w : world) :
  get_bmu v w = (Fp.get_bmu Fp.real (weights (self w)) v, w).
Proof.
  unfold Fp.get_bmu. rewrite distance_real.
  unfold get_bmu, bind, attr, lift, ret.
  destruct (op_vec Rminus (weights (self w)) v) as [e|diff]; [reflexivity|].
  rewrite argmin_real.
  destruct (argmin _) as [e|i]; reflexivity.
Qed.




(** ** One update, cell by cell *)

Lemma theta_at_bmu (s : SOM) (i : Z) (bmu : nat * nat) :
  theta_at s i bmu (fst bmu) (snd bmu) = 1.
Proof.
  unfold theta_at, grid_dist. rewrite !Z.sub_diag. simpl IZR.
  unfold Rdiv. rewrite Ropp_0, Rmult_0_l. apply exp_0.
Qed.


Lemma nudge_full :
  forall c v : list R,
    length c = length v ->
    map2 Rplus c (map (Rmult 1) (map2 Rminus v c)) = v.
Proof.
  unfold map2. induction c as [|a c IH]; intros [|b v] H; simpl in *;
    try discriminate; [reflexivity|].
  f_equal; [lra|]. apply IH. lia.
Qed.





Section OneUpdate.
Variables (n0 n1 n2 : nat) (N : Z).
Hypothesis Hn0 : (0 < n0)%nat.
Hypothesis Hn1 : (0 < n1)%nat.
Hypothesis HN : N <> 0%Z.
Variables (s : SOM) (out : list Z) (i : Z) (v : list R).
Hypothesis Hready : ready n0 n1 n2 N s.
Hypothesis Hv : length v = n2.

(** What [teach_row] returns: for every cell, [theta * (v - w)]. *)
Lemma teach_row_cells :
  exists bmu delta,
    get_bmu v (mkWorld s out) = (inr bmu, mkWorld s out) /\
    first_minimum (weights s) v n0 n1 bmu /\
    teach_row v i (mkWorld s out) = (inr delta, mkWorld s out) /\
    shape3 delta = (n0, n1, n2) /\
    forall x y, (x < n0)%nat -> (y < n1)%nat ->
      cell delta x y =
        map (Rmult (theta_at s i bmu x y))
            (map2 Rminus v (cell (weights s) x y)).
Proof.
  destruct Hready as (Hc & Hs & Hnum). destruct Hc as [Hwf Hrad Htc].
  destruct (get_bmu_spec (mkWorld s out) v n0 n1 n2 Hwf Hs Hn0 Hn1 Hv)
    as (bmu & Hb & Hfirst).
  exists bmu, (mk3 (n0, n1, n2) (delta_rows s i v bmu n0 n1)).
  split; [exact Hb|]. split; [exact Hfirst|]. split; [|split].
  - rewrite (teach_row_eq v i (mkWorld s out) n0 n1 n2 n2 bmu); auto.
    + apply Htc. congruence.
    + simpl. congruence.
    + rewrite Hv. apply broadcast_same.
  - reflexivity.
  - intros x y Hx Hy. unfold cell. simpl data3.
    apply (delta_cell s i v bmu n0 n1 n2 Hs Hwf Hv x y Hx Hy).
Qed.

(** What [teach] stores: the cell at the best matching unit becomes the
    input vector. *)
Lemma teach_step_bmu_cell :
  exists bmu s',
    get_bmu v (mkWorld s out) = (inr bmu, mkWorld s out) /\
    teach_step v i (mkWorld s out) = (inr tt, mkWorld s' out) /\
    ready n0 n1 n2 N s' /\
    (fst bmu < n0)%nat /\ (snd bmu < n1)%nat /\
    length (cell (weights s) (fst bmu) (snd bmu)) = n2 /\
    cell (weights s') (fst bmu) (snd bmu) = v.
Proof.
  destruct (teach_step_ready n0 n1 n2 N Hn0 Hn1 HN s out i v Hready Hv)
    as (bmu & Hb & Hbx & Hby & E & R').
  destruct Hready as (Hc & Hs & Hnum). destruct Hc as [Hwf Hrad Htc].
  pose proof (wf3_cell_length (weights s) n0 n1 n2 Hs Hwf _ _ Hbx Hby) as Hl.
  eexists bmu, _. split; [exact Hb|]. split; [exact E|].
  split; [exact R'|]. split; [exact Hbx|]. split; [exact Hby|].
  split; [exact Hl|].
  unfold cell. simpl data3.
  rewrite (nudged_cell s i v bmu n0 n1 n2 Hs Hwf Hv _ _ Hbx Hby).
  rewrite theta_at_bmu. apply nudge_full. unfold cell. lia.
Qed.
End OneUpdate.

(** The parts of one update on a consistent object: the value of
    [teach_row], its sum with the weights, and what the update stores. *)
Lemma apply_update_updated (s : SOM) (iv : Z * list R) :
  apply_update s iv = updated s iv.
Proof.
  unfold apply_update, updated, teach_step, bind, attr. cbv beta iota.
  pose proof (teach_row_frame (snd iv) (fst iv) (mkWorld s [])) as Hf.
  destruct (teach_row (snd iv) (fst iv) (mkWorld s [])) as [[e|delta] w1];
    simpl in Hf; subst w1; [reflexivity|].
  cbn [fst]. unfold lift. cbn [self].
  destruct (iadd (weights s) delta) as [e|w']; reflexivity.
Qed.

Lemma update_parts (n0 n1 n2 : nat) (N : Z) (s : SOM) (out : list Z)
    (i : Z) (v : list R) :
  (0 < n0)%nat -> (0 < n1)%nat -> N <> 0%Z ->
  ready n0 n1 n2 N s -> length v = n2 ->
  exists bmu delta,
    get_bmu v (mkWorld s out) = (inr bmu, mkWorld s out) /\
    (fst bmu < n0)%nat /\ (snd bmu < n1)%nat /\
    teach_row v i (mkWorld s out) = (inr delta, mkWorld s out) /\
    (forall x y, (x < n0)%nat -> (y < n1)%nat ->
       cell delta x y =
         map (Rmult (theta_at s i bmu x y))
             (map2 Rminus v (cell (weights s) x y))) /\
    iadd (weights s) delta = inr (weights (apply_update s (i, v))) /\
    teach_step v i (mkWorld s out)
    = (inr tt, mkWorld (apply_update s (i, v)) out) /\
    ready n0 n1 n2 N (apply_update s (i, v)) /\
    (forall x y, (x < n0)%nat -> (y < n1)%nat ->
       length (cell (weights s) x y) = n2 /\
       length (cell (weights (apply_update s (i, v))) x y) = n2 /\
       cell (weights (apply_update s (i, v))) x y
       = map2 Rplus (cell (weights s) x y) (cell delta x y)).
Proof.
  intros Hn0 Hn1 HN Hready Hv.
  destruct (teach_step_ready n0 n1 n2 N Hn0 Hn1 HN s out i v Hready Hv)
    as (bmu & Hb & Hbx & Hby & E & R').
  destruct (updated_eq n0 n1 n2 N Hn0 Hn1 HN s i v out Hready Hv) as [E' _].
  assert (Hup : apply_update s (i, v)
                = with_weights s
                    (mk3 (n0, n1, n2) (nudged_rows s i v bmu n0 n1))).
  { rewrite apply_update_updated. rewrite E in E'. now inversion E'. }
  destruct Hready as (Hc & Hs & Hnum). destruct Hc as [Hwf Hrad Htc].
  assert (Hrow : teach_row v i (mkWorld s out)
                 = (inr (mk3 (n0, n1, n2) (delta_rows s i v bmu n0 n1)),
                    mkWorld s out)).
  { rewrite (teach_row_eq v i (mkWorld s out) n0 n1 n2 n2 bmu); auto.
    - apply Htc. congruence.
    - simpl. congruence.
    - rewrite Hv. apply broadcast_same. }
  assert (Hdelta : forall x y, (x < n0)%nat -> (y < n1)%nat ->
            cell (mk3 (n0, n1, n2) (delta_rows s i v bmu n0 n1)) x y
            = map (Rmult (theta_at s i bmu x y))
                  (map2 Rminus v (cell (weights s) x y))).
  { intros x y Hx Hy. unfold cell. simpl data3.
    apply (delta_cell s i v bmu n0 n1 n2 Hs Hwf Hv x y Hx Hy). }
  exists bmu, (mk3 (n0, n1, n2) (delta_rows s i v bmu n0 n1)).
  split; [exact Hb|]. split; [exact Hbx|]. split; [exact Hby|].
  split; [exact Hrow|]. split; [exact Hdelta|].
  rewrite Hup. split; [|split; [exact E|split; [exact R'|]]].
  - unfold iadd, with_weights. cbn [shape3 data3 weights].
    rewrite Hs, Nat.eqb_refl. reflexivity.
  - intros x y Hx Hy.
    destruct R' as (Hc' & Hs' & _). destruct Hc' as [Hwf' _ _].
    split; [exact (wf3_cell_length (weights s) n0 n1 n2 Hs Hwf x y Hx Hy)|].
    split; [exact (wf3_cell_length _ n0 n1 n2 Hs' Hwf' x y Hx Hy)|].
    rewrite (Hdelta x y Hx Hy). unfold cell at 1. simpl data3.
    exact (nudged_cell s i v bmu n0 n1 n2 Hs Hwf Hv x y Hx Hy).
Qed.



(** ** The learning rate *)

Lemma unit_lattice_init : __init__ zero_rng 1 1 3 1 1 = inr unit_lattice.
Proof. rewrite init_ok by lia. reflexivity. Qed.

Lemma unit_lattice_ready : ready 1 1 3 1 unit_lattice.
Proof.
  apply (init_consistent zero_rng 1 1 3 1 1); try lia.
  exact unit_lattice_init.
Qed.

Lemma unit_lattice_cell : cell (weights unit_lattice) 0 0 = [0; 0; 0].
Proof. reflexivity. Qed.

(** C1.  The array [teach_row] returns is [theta * (v - w)] for every
    cell: the learning rate is computed and not applied.  On the object
    of [SOM(1, 1, 3, 1, 1)] drawn from [zero_rng], with the input
    [[10; 0; 0]] at iteration 0, [lr = 0.1] and [theta = 1] at the only
    cell, so the claimed change is [[1; 0; 0]]; [teach_row] returns
    [[10; 0; 0]], and the update moves the cell from [[0; 0; 0]] to
    [[10; 0; 0]]. *)
Theorem teach_row_ignores_lr :
  exists delta s',
    __init__ zero_rng 1 1 3 1 1 = inr unit_lattice /\
    teach_row [10; 0; 0] 0 (mkWorld unit_lattice []) =
      (inr delta, mkWorld unit_lattice []) /\
    cell (weights unit_lattice) 0 0 = [0; 0; 0] /\
    learning_rate unit_lattice 0 = 0.1 /\
    theta_at unit_lattice 0 (0, 0)%nat 0 0 = 1 /\
    cell delta 0 0 = [10; 0; 0] /\
    map (fun u => learning_rate unit_lattice 0
                  * theta_at unit_lattice 0 (0, 0)%nat 0 0 * u)
        (map2 Rminus [10; 0; 0] (cell (weights unit_lattice) 0 0))
      = [1; 0; 0] /\
    teach_step [10; 0; 0] 0 (mkWorld unit_lattice []) =
      (inr tt, mkWorld s' []) /\
    cell (weights s') 0 0 = [10; 0; 0].
Proof.
  destruct (teach_row_cells 1 1 3 1 ltac:(lia) ltac:(lia) ltac:(lia)
              unit_lattice [] 0 [10; 0; 0] unit_lattice_ready eq_refl)
    as (bmu & delta & _ & (Hbx & Hby & _) & E & _ & Hcell).
  assert (Hbmu : bmu = (0, 0)%nat) by (destruct bmu; simpl in *; f_equal; lia).
  subst bmu.
  destruct (teach_step_bmu_cell 1 1 3 1 ltac:(lia) ltac:(lia) ltac:(lia)
              unit_lattice [] 0 [10; 0; 0] unit_lattice_ready eq_refl)
    as (bmu & s' & _ & E' & _ & Hbx' & Hby' & _ & Hcell').
  assert (Hbmu : bmu = (0, 0)%nat) by (destruct bmu; simpl in *; f_equal; lia).
  subst bmu. simpl in Hcell'.
  assert (Hlr : learning_rate unit_lattice 0 = 0.1).
  { unfold learning_rate. simpl. unfold Rdiv at 1.
    rewrite Rmult_0_l, exp_0. lra. }
  assert (Hth : theta_at unit_lattice 0 (0, 0)%nat 0 0 = 1)
    by exact (theta_at_bmu unit_lattice 0 (0, 0)%nat).
  exists delta, s'. split; [exact unit_lattice_init|]. split; [exact E|].
  split; [exact unit_lattice_cell|]. split; [exact Hlr|].
  split; [exact Hth|].
  split; [|split; [|split; [exact E'|exact Hcell']]].
  - rewrite (Hcell 0%nat 0%nat) by lia. rewrite Hth.
    rewrite unit_lattice_cell. unfold map2. simpl.
    repeat (f_equal; try lra).
  - rewrite Hlr, Hth, unit_lattice_cell. unfold map2. simpl.
    repeat (f_equal; try lra).
Qed.

(** ** The training loop *)

Lemma fold_updated_ready (n0 n1 n2 : nat) (N : Z) :
  (0 < n0)%nat -> (0 < n1)%nat -> N <> 0%Z ->
  forall (l : list (Z * list R)) (s : SOM),
    Forall (fun iv => length (snd iv) = n2) l ->
    ready n0 n1 n2 N s ->
    ready n0 n1 n2 N (fold_left updated l s).
Proof.
  intros Hn0 Hn1 HN. induction l as [|[i v] l IH]; intros s Hl Hr; simpl;
    [exact Hr|].
  apply Forall_cons_iff in Hl. destruct Hl as [Hv Hl].
  apply IH; [exact Hl|].
  exact (proj2 (updated_eq n0 n1 n2 N Hn0 Hn1 HN s i v [] Hr Hv)).
Qed.

Lemma schedule_lengths (n : Z) (n2 : nat) (t_set : list (list R)) :
  Forall (fun v => length v = n2) t_set ->
  Forall (fun iv : Z * list R => length (snd iv) = n2) (schedule n t_set).
Proof.
  intros H. unfold schedule. rewrite Forall_flat_map, Forall_forall.
  intros i _. rewrite Forall_map. exact H.
Qed.

Lemma fold_apply_update (l : list (Z * list R)) :
  forall s, fold_left apply_update l s = fold_left updated l s.
Proof.
  induction l as [|iv l IH]; intros s; simpl; [reflexivity|].
  now rewrite apply_update_updated, IH.
Qed.

Lemma firstn_snoc {A : Type} (d : A) :
  forall (l : list A) (k : nat),
    (k < length l)%nat -> firstn (S k) l = firstn k l ++ [nth k l d].
Proof.
  induction l as [|a l IH]; intros k Hk; simpl in Hk; [lia|].
  destruct k as [|k]; [reflexivity|].
  cbn [firstn nth app]. f_equal. apply IH. lia.
Qed.

Lemma before_update_S (sched : list (Z * list R)) (s : SOM) (k : nat) :
  (k < length sched)%nat ->
  before_update sched s (S k)
  = apply_update (before_update sched s k) (nth k sched (0%Z, [])).
Proof.
  intros Hk. unfold before_update.
  rewrite (firstn_snoc (0%Z, []) sched k Hk), fold_left_app. reflexivity.
Qed.

Lemma before_update_ready (n0 n1 n2 : nat) (N : Z)
    (sched : list (Z * list R)) (s : SOM) (k : nat) :
  (0 < n0)%nat -> (0 < n1)%nat -> N <> 0%Z ->
  Forall (fun iv => length (snd iv) = n2) sched ->
  ready n0 n1 n2 N s ->
  ready n0 n1 n2 N (before_update sched s k).
Proof.
  intros Hn0 Hn1 HN Hl Hr. unfold before_update. rewrite fold_apply_update.
  apply (fold_updated_ready n0 n1 n2 N Hn0 Hn1 HN); [|exact Hr].
  rewrite <- (firstn_skipn k sched) in Hl. apply Forall_app in Hl. tauto.
Qed.

(** C5.  On a consistent, non-empty lattice and a sample set (empty or
    not) of vectors of the lattice's dimensionality, [teach] returns
    normally.  The object it leaves is the one obtained by applying, in
    the order of the schedule, the update built from its parts: the value
    of [teach_row] on the current object is added to the current weights.
    The schedule has [N * S] entries, the one at position [t * S + j]
    being sample [j] with the iteration index [t]: epochs outermost,
    samples in their order, all samples of an epoch under one [t].  At
    every position [k] of the schedule, on the object left by the [k]
    updates before it, [get_bmu] and [teach_row] succeed, [teach_row]
    returns [theta * (v - w)] cell by cell, and the sum of that value and
    the weights is the weights on which the search of position [k + 1]
    runs. *)
Theorem teach_follows_schedule (n0 n1 n2 : nat) (s : SOM) (out : list Z)
    (t_set : list (list R)) :
  (0 < n0)%nat -> (0 < n1)%nat ->
  consistent s -> shape3 (weights s) = (n0, n1, n2) ->
  (0 <= num_iter s)%Z ->
  Forall (fun v => length v = n2) t_set ->
  let N := num_iter s in
  let S := length t_set in
  let sched := schedule N t_set in
  teach t_set (mkWorld s out) =
    (inr tt,
     mkWorld (fold_left apply_update sched s)
             (out ++ filter (fun i => (i mod 10 =? 0)%Z) (range N))) /\
  Z.of_nat (length sched) = (N * Z.of_nat S)%Z /\
  (forall t j, (t < Z.to_nat N)%nat -> (j < S)%nat ->
     nth (t * S + j) sched (0%Z, []) = (Z.of_nat t, nth j t_set [])) /\
  (forall k o, (k < length sched)%nat ->
     let i := fst (nth k sched (0%Z, [])) in
     let v := snd (nth k sched (0%Z, [])) in
     let s_k := before_update sched s k in
     let s_k' := before_update sched s (k + 1) in
     exists bmu delta,
       get_bmu v (mkWorld s_k o) = (inr bmu, mkWorld s_k o) /\
       (fst bmu < n0)%nat /\ (snd bmu < n1)%nat /\
       teach_row v i (mkWorld s_k o) = (inr delta, mkWorld s_k o) /\
       (forall x y, (x < n0)%nat -> (y < n1)%nat ->
          cell delta x y =
            map (Rmult (theta_at s_k i bmu x y))
                (map2 Rminus v (cell (weights s_k) x y))) /\
       iadd (weights s_k) delta = inr (weights s_k') /\
       (forall x y, (x < n0)%nat -> (y < n1)%nat ->
          cell (weights s_k') x y
          = map2 Rplus (cell (weights s_k) x y) (cell delta x y)) /\
       teach_step v i (mkWorld s_k o) = (inr tt, mkWorld s_k' o)).
Proof.
  intros Hn0 Hn1 Hc Hs HN Hall N S sched.
  assert (Hready : ready n0 n1 n2 N s)
    by (split; [exact Hc|split; [exact Hs|reflexivity]]).
  split; [|split; [|split]].
  - rewrite teach_eq, fold_apply_update. simpl self. fold N.
    destruct (Z.eq_dec N 0) as [E|E].
    + unfold sched. rewrite E. simpl. now rewrite app_nil_r.
    + exact (epochs_run n0 n1 n2 N t_set Hn0 Hn1 E Hall _ s out Hready).
  - unfold sched. rewrite schedule_length. fold S. lia.
  - intros t j Ht Hj. apply schedule_nth; assumption.
  - intros k o Hk i v s_k s_k'.
    assert (HN0 : N <> 0%Z).
    { intros E. unfold sched in Hk. rewrite E in Hk. simpl in Hk. lia. }
    pose proof (schedule_lengths N n2 t_set Hall) as Hlen. fold sched in Hlen.
    assert (Hv : length v = n2).
    { rewrite Forall_forall in Hlen. apply Hlen. now apply nth_In. }
    pose proof (before_update_ready n0 n1 n2 N sched s k Hn0 Hn1 HN0 Hlen
                  Hready) as Hrk. fold s_k in Hrk.
    assert (Hnext : s_k' = apply_update s_k (i, v)).
    { unfold s_k', s_k, i, v. rewrite Nat.add_1_r, before_update_S by exact Hk.
      now rewrite <- surjective_pairing. }
    destruct (update_parts n0 n1 n2 N s_k o i v Hn0 Hn1 HN0 Hrk Hv)
      as (bmu & delta & Hb & Hbx & Hby & Hrow & Hdelta & Hadd & E & _ & Hcells).
    exists bmu, delta. rewrite Hnext.
    split; [exact Hb|]. split; [exact Hbx|]. split; [exact Hby|].
    split; [exact Hrow|]. split; [exact Hdelta|]. split; [exact Hadd|].
    split; [|exact E].
    intros x y Hx Hy. now destruct (Hcells x y Hx Hy) as (_ & _ & H).
Qed.

(** [teach_follows_schedule] on the unit lattice with two samples. *)
Lemma teach_follows_schedule_witness :
  let t_set := [[10; 0; 0]; [0; 10; 0]] in
  teach t_set (mkWorld unit_lattice []) =
    (inr tt,
     mkWorld (fold_left apply_update
                [(0%Z, [10; 0; 0]); (0%Z, [0; 10; 0])] unit_lattice)
             [0%Z]) /\
  length (schedule (num_iter unit_lattice) t_set) = 2%nat.
Proof.
  intros t_set.
  destruct (teach_follows_schedule 1 1 3 unit_lattice [] t_set)
    as (E & Hlen & _).
  - lia.
  - lia.
  - apply unit_lattice_ready.
  - reflexivity.
  - simpl. lia.
  - repeat constructor.
  - split; [exact E|reflexivity].
Defined.

(** ** Input vectors of another length *)

Lemma broadcast_error (n k : nat) (e : exn) :
  broadcast n k = inl e -> e = ValueError.
Proof.
  unfold broadcast.
  destruct (Nat.eqb n k), (Nat.eqb k 1), (Nat.eqb n 1); congruence.
Qed.

Lemma broadcast_mismatch (n k : nat) :
  n <> k -> k <> 1%nat -> n <> 1%nat -> broadcast n k = inl ValueError.
Proof.
  intros H1 H2 H3. unfold broadcast.
  destruct (Nat.eqb_spec n k); [contradiction|].
  destruct (Nat.eqb_spec k 1); [contradiction|].
  destruct (Nat.eqb_spec n 1); [contradiction|reflexivity].
Qed.

Lemma broadcast_one_l (k : nat) : broadcast 1 k = inr k.
Proof.
  unfold broadcast. destruct (Nat.eqb_spec 1 k) as [<-|H]; [reflexivity|].
  destruct (Nat.eqb_spec k 1); [congruence|reflexivity].
Qed.

Lemma broadcast_one_r (k : nat) : broadcast k 1 = inr k.
Proof.
  unfold broadcast. destruct (Nat.eqb_spec k 1) as [->|H]; reflexivity.
Qed.

(** One update with a vector that does not fit raises [ValueError] and
    leaves everything as it was. *)
Lemma teach_step_mismatch (s : SOM) (out : list Z) (i : Z) (v : list R)
    (n0 n1 n2 : nat) :
  shape3 (weights s) = (n0, n1, n2) ->
  t_const s <> 0 -> num_iter s <> 0%Z ->
  length v <> n2 -> length v <> 1%nat ->
  teach_step v i (mkWorld s out) = (inl ValueError, mkWorld s out).
Proof.
  intros Hs Ht Hn Hv Hv1. set (w := mkWorld s out).
  assert (Herr : forall e, get_bmu v w = (inl e, w) -> e = ValueError ->
                 teach_step v i w = (inl ValueError, w)).
  { intros e Hb ->. unfold teach_step, bind, attr. cbv beta iota.
    now rewrite (teach_row_bmu_error v i w ValueError Ht Hb). }
  destruct (Nat.eq_dec n2 1) as [->|Hn2].
  - (* dimensionality 1: the subtraction broadcasts, [+=] does not *)
    pose proof (get_bmu_eq v w n0 n1 1 (length v) Hs
                  (broadcast_one_l (length v))) as Hb.
    destruct (concat _) as [|d0 l] in Hb.
    + exact (Herr _ Hb eq_refl).
    + unfold teach_step, bind, attr. cbv beta iota.
      rewrite (teach_row_eq v i w n0 n1 1 (length v) _ Hs Ht Hn Hb
                 (broadcast_one_r (length v))).
      unfold lift, iadd, expand_mul. cbn [shape3 data3 self].
      unfold w at 1. cbn [self]. rewrite Hs.
      destruct (Nat.eqb_spec (length v) 1) as [E|_]; [contradiction|].
      reflexivity.
  - (* otherwise the subtraction in [get_bmu] already fails *)
    apply (Herr ValueError); [|reflexivity].
    apply (get_bmu_shape_error v w n0 n1 n2 ValueError Hs).
    apply broadcast_mismatch; auto.
Qed.

Lemma for_app {A : Type} (f : A -> M unit) (a b : list A) (w : world) :
  for_ (a ++ b) f w =
    match for_ a f w with
    | (inl e, w') => (inl e, w')
    | (inr _, w') => for_ b f w'
    end.
Proof.
  revert w. induction a as [|x a IH]; intros w; simpl; [reflexivity|].
  unfold bind. destruct (f x w) as [[e|u] w']; [reflexivity|apply IH].
Qed.

Lemma range_pos (n : Z) :
  (0 < n)%Z -> exists l, range n = 0%Z :: l.
Proof.
  intros H. unfold range.
  destruct (Z.to_nat n) as [|k] eqn:E; [lia|].
  simpl. eexists. reflexivity.
Qed.

(** ** What an update keeps *)

Lemma same_frame_refl (w : world) : same_frame w w.
Proof.
  unfold same_frame. repeat split. exists []. now rewrite app_nil_r.
Qed.

Lemma same_frame_trans (w1 w2 w3 : world) :
  same_frame w1 w2 -> same_frame w2 w3 -> same_frame w1 w3.
Proof.
  intros (A1 & A2 & A3 & A4 & A5 & m1 & A6) (B1 & B2 & B3 & B4 & B5 & m2 & B6).
  unfold same_frame. repeat split; try congruence.
  exists (m1 ++ m2). rewrite B6, A6. now rewrite app_assoc.
Qed.

Lemma iadd_shape (a d a' : ndarray3 R) :
  iadd a d = inr a' -> shape3 a' = shape3 a.
Proof.
  unfold iadd. destruct (shape3 a) as [[a0 a1] a2] eqn:Ea.
  destruct (shape3 d) as [[d0 d1] d2].
  destruct (Nat.eqb d2 a2 || Nat.eqb d2 1); [|discriminate].
  intros H. inversion H. reflexivity.
Qed.

Lemma teach_step_same_frame (v : list R) (i : Z) (w : world) :
  same_frame w (snd (teach_step v i w)).
Proof.
  unfold teach_step, bind, attr. cbv beta iota.
  pose proof (teach_row_frame v i w) as Hf.
  destruct (teach_row v i w) as [[e|delta] w1]; simpl in Hf; subst w1;
    [apply same_frame_refl|].
  unfold lift.
  destruct (iadd (weights (self w)) delta) as [e|a'] eqn:Ei;
    [apply same_frame_refl|].
  unfold set_weights, same_frame. simpl.
  repeat split; [exact (iadd_shape _ _ _ Ei)|].
  exists []. now rewrite app_nil_r.
Qed.

Lemma for_same_frame {A : Type} (body : A -> M unit) (l : list A) :
  (forall x w, same_frame w (snd (body x w))) ->
  forall w, same_frame w (snd (for_ l body w)).
Proof.
  intros H. induction l as [|x l IH]; intros w; simpl.
  - apply same_frame_refl.
  - unfold bind. specialize (H x w).
    destruct (body x w) as [[e|u] w1]; simpl in *; [exact H|].
    exact (same_frame_trans _ _ _ H (IH w1)).
Qed.

(** ** A sample of length 1 is stretched *)

Lemma op_vec_scalar (W : ndarray3 R) (c : R) (n0 n1 n2 : nat) :
  wf3 W -> shape3 W = (n0, n1, n2) ->
  op_vec Rminus W [c] = op_vec Rminus W (repeat c n2).
Proof.
  intros Hwf Hs. unfold op_vec. rewrite Hs, repeat_length. simpl length.
  rewrite broadcast_one_r, broadcast_same. do 2 f_equal.
  unfold wf3 in Hwf. rewrite Hs in Hwf. destruct Hwf as [_ Hrows].
  rewrite Forall_forall in Hrows.
  apply map_ext_in. intros row Hrow.
  destruct (Hrows row Hrow) as [_ Hcells]. rewrite Forall_forall in Hcells.
  apply map_ext_in. intros cl Hcl. specialize (Hcells cl Hcl).
  rewrite (bcast_same_length Rminus cl (repeat c n2))
    by now rewrite repeat_length.
  rewrite <- Hcells. now rewrite map2_repeat_r.
Qed.

Lemma vec_op_scalar (W : ndarray3 R) (c : R) (n0 n1 n2 : nat) :
  wf3 W -> shape3 W = (n0, n1, n2) ->
  vec_op Rminus [c] W = vec_op Rminus (repeat c n2) W.
Proof.
  intros Hwf Hs. unfold vec_op. rewrite Hs, repeat_length. simpl length.
  rewrite broadcast_one_l, broadcast_same. do 2 f_equal.
  unfold wf3 in Hwf. rewrite Hs in Hwf. destruct Hwf as [_ Hrows].
  rewrite Forall_forall in Hrows.
  apply map_ext_in. intros row Hrow.
  destruct (Hrows row Hrow) as [_ Hcells]. rewrite Forall_forall in Hcells.
  apply map_ext_in. intros cl Hcl. specialize (Hcells cl Hcl).
  rewrite bcast_scalar_l.
  rewrite (bcast_same_length Rminus (repeat c n2) cl)
    by now rewrite repeat_length.
  rewrite <- Hcells. now rewrite map2_repeat_l.
Qed.

(** C8, as stated, fails: a vector of length 1 is not rejected on a
    lattice of dimensionality 3.  numpy stretches it over the three
    components, the update is applied and training returns normally. *)
Lemma scalar_vector_accepted :
  exists s',
    length [5] <> 3%nat /\
    shape3 (weights unit_lattice) = (1, 1, 3)%nat /\
    teach [[5]] (mkWorld unit_lattice []) = (inr tt, mkWorld s' [0%Z]) /\
    cell (weights unit_lattice) 0 0 = [0; 0; 0] /\
    cell (weights s') 0 0 = [5; 5; 5].
Proof.
  set (w := mkWorld unit_lattice []).
  assert (Ht : t_const unit_lattice <> 0).
  { apply (ready_t_const _ _ _ _ _ unit_lattice_ready). lia. }
  assert (Hb : forall out,
             get_bmu [5] (mkWorld unit_lattice out)
             = (inr (0, 0)%nat, mkWorld unit_lattice out)).
  { intros out.
    rewrite (get_bmu_eq [5] (mkWorld unit_lattice out) 1 1 3 3 eq_refl eq_refl).
    reflexivity. }
  assert (E : teach_step [5] 0 (mkWorld unit_lattice [0%Z]) =
              (inr tt,
               mkWorld (with_weights unit_lattice
                          (mk3 (1, 1, 3)%nat
                               (nudged_rows unit_lattice 0 [5] (0, 0)%nat 1 1)))
                       [0%Z])).
  { apply (teach_step_eq [5] 0 (mkWorld unit_lattice [0%Z]) 1 1 3 (0, 0)%nat).
    - reflexivity.
    - exact Ht.
    - discriminate.
    - apply Hb.
    - reflexivity. }
  eexists. split; [discriminate|]. split; [reflexivity|].
  split; [|split; [exact unit_lattice_cell|]].
  - rewrite teach_eq. simpl. unfold bind, print. simpl.
    rewrite E. reflexivity.
  - pose proof (theta_at_bmu unit_lattice 0 (0, 0)%nat) as Hth.
    cbn [fst snd] in Hth.
    unfold cell, nudged_rows, delta_rows, theta_rows, map2.
    cbn -[theta_at Z.modulo]. rewrite Hth. unfold zero_rng.
    change (0 mod 256)%Z with 0%Z.
    repeat (f_equal; try lra).
Qed.

(** *** An update that raises changes nothing *)

Lemma teach_step_error_frame (v : list R) (i : Z) (w w' : world) (e : exn) :
  teach_step v i w = (inl e, w') -> w' = w.
Proof.
  unfold teach_step, bind, attr. cbv beta iota.
  pose proof (teach_row_frame v i w) as Hf.
  destruct (teach_row v i w) as [[e1|delta] w1]; simpl in Hf; subst w1.
  - intros H. now inversion H.
  - unfold lift. destruct (iadd (weights (self w)) delta) as [e1|a'].
    + intros H. now inversion H.
    + discriminate.
Qed.

(** The array [teach_row] returns has the shape that the input vector
    and the vectors of the lattice broadcast to. *)
Lemma teach_row_shape (v : list R) (i : Z) (w w' : world)
    (delta : ndarray3 R) (n0 n1 n2 : nat) :
  shape3 (weights (self w)) = (n0, n1, n2) ->
  teach_row v i w = (inr delta, w') ->
  exists d, broadcast (length v) n2 = inr d /\ shape3 delta = (n0, n1, d).
Proof.
  intros Hs. unfold teach_row, bind.
  pose proof (get_nbhood_radius_frame i w) as Hf.
  destruct (get_nbhood_radius i w) as [[e|r] w1]; simpl in Hf; subst w1;
    [discriminate|].
  pose proof (get_bmu_dist_frame v w) as Hf.
  destruct (get_bmu_dist v w) as [[e|bd] w1]; simpl in Hf; subst w1;
    [discriminate|].
  unfold attr, lift, ret. destruct (truediv _ _) as [e|q]; [discriminate|].
  unfold vec_op. rewrite Hs.
  destruct (broadcast (length v) n2) as [e|d]; [discriminate|].
  intros H. inversion H. exists d. split; reflexivity.
Qed.

Lemma teach_step_rejects (s : SOM) (out : list Z) (i : Z) (v : list R)
    (n0 n1 n2 : nat) :
  shape3 (weights s) = (n0, n1, n2) ->
  length v <> n2 -> length v <> 1%nat ->
  exists e, teach_step v i (mkWorld s out) = (inl e, mkWorld s out).
Proof.
  intros Hs Hv Hv1. set (w := mkWorld s out).
  destruct (teach_step v i w) as [[e|u] w'] eqn:E.
  - exists e. now rewrite (teach_step_error_frame v i w w' e E).
  - exfalso. revert E. unfold teach_step, bind, attr. cbv beta iota.
    destruct (teach_row v i w) as [[e|delta] w1] eqn:Er; [discriminate|].
    destruct (teach_row_shape v i w w1 delta n0 n1 n2 Hs Er)
      as (d & Hd & Hshape).
    unfold lift, iadd. cbn [self w]. rewrite Hs, Hshape.
    assert (Hdd : d = length v /\ n2 = 1%nat).
    { revert Hd. unfold broadcast.
      destruct (Nat.eqb_spec (length v) n2); [contradiction|].
      destruct (Nat.eqb_spec n2 1); [intros H; inversion H; auto|].
      destruct (Nat.eqb_spec (length v) 1); [contradiction|discriminate]. }
    destruct Hdd as [-> ->].
    destruct (Nat.eqb_spec (length v) 1); [contradiction|]. discriminate.
Qed.

(** A training run with at least one epoch raises as soon as its sample
    set holds a vector that an update rejects. *)
Lemma epoch_rejects (n0 n1 n2 : nat) (v : list R) (i : Z) :
  length v <> n2 -> length v <> 1%nat ->
  forall (l : list (list R)) (w : world),
    shape3 (weights (self w)) = (n0, n1, n2) ->
    In v l ->
    exists e w', for_ l (fun u => teach_step u i) w = (inl e, w').
Proof.
  intros Hv Hv1. induction l as [|u l IH]; intros w Hs Hin; [contradiction|].
  simpl for_. unfold bind.
  destruct (teach_step u i w) as [[e|t] w1] eqn:E; [now exists e, w1|].
  destruct Hin as [->|Hin].
  - exfalso. destruct w as [s o].
    destruct (teach_step_rejects s o i v n0 n1 n2 Hs Hv Hv1) as (e & He).
    rewrite He in E. discriminate.
  - apply IH; [|exact Hin].
    pose proof (teach_step_same_frame u i w) as Hf. rewrite E in Hf.
    destruct Hf as (_ & _ & _ & _ & Hshape & _). simpl in Hshape. congruence.
Qed.

(** *** Samples that an update accepts *)

Lemma scalar_sample (w : world) (c : R) (i : Z) (n0 n1 n2 : nat) :
  wf3 (weights (self w)) ->
  shape3 (weights (self w)) = (n0, n1, n2) ->
  teach_row [c] i w = teach_row (repeat c n2) i w /\
  teach_step [c] i w = teach_step (repeat c n2) i w.
Proof.
  intros Hwf Hs.
  assert (Hd : get_bmu_dist [c] w = get_bmu_dist (repeat c n2) w).
  { unfold get_bmu_dist, bind, attr.
    destruct (shape3 (weights (self w))) as [[x y] rgb] eqn:Eshape.
    replace (get_bmu [c] w) with (get_bmu (repeat c n2) w); [reflexivity|].
    unfold get_bmu, bind, attr, lift.
    rewrite <- Eshape in Hs.
    now rewrite (op_vec_scalar _ c n0 n1 n2 Hwf Hs). }
  assert (Hr : teach_row [c] i w = teach_row (repeat c n2) i w).
  { unfold teach_row, bind.
    pose proof (get_nbhood_radius_frame i w) as Hf.
    destruct (get_nbhood_radius i w) as [[e|r] w1]; simpl in Hf; subst w1;
      [reflexivity|].
    rewrite Hd.
    pose proof (get_bmu_dist_frame (repeat c n2) w) as Hf.
    destruct (get_bmu_dist (repeat c n2) w) as [[e|d] w1]; simpl in Hf;
      subst w1; [reflexivity|].
    unfold attr, lift.
    destruct (truediv _ _); [reflexivity|].
    now rewrite (vec_op_scalar _ c n0 n1 n2 Hwf Hs). }
  split; [exact Hr|].
  unfold teach_step, bind, attr. cbv beta iota. now rewrite Hr.
Qed.

Section Accepted.
Variables (n0 n1 n2 : nat) (N : Z).
Hypothesis Hn0 : (0 < n0)%nat.
Hypothesis Hn1 : (0 < n1)%nat.
Hypothesis HN : N <> 0%Z.

Lemma teach_step_accepts (s : SOM) (out : list Z) (i : Z) (u : list R) :
  ready n0 n1 n2 N s ->
  length u = n2 \/ length u = 1%nat ->
  teach_step u i (mkWorld s out)
  = (inr tt, mkWorld (apply_update s (i, u)) out) /\
  ready n0 n1 n2 N (apply_update s (i, u)).
Proof.
  intros Hr [Hu|Hu].
  - rewrite apply_update_updated.
    exact (updated_eq n0 n1 n2 N Hn0 Hn1 HN s i u out Hr Hu).
  - destruct u as [|c [|c' u]]; try discriminate.
    destruct Hr as (Hc & Hs & Hnum).
    pose proof (c_wf s Hc) as Hwf.
    assert (Hsame : apply_update s (i, [c])
                    = apply_update s (i, repeat c n2)).
    { unfold apply_update. cbn [fst snd].
      now rewrite (proj1 (scalar_sample (mkWorld s []) c i n0 n1 n2 Hwf Hs)). }
    rewrite (proj2 (scalar_sample (mkWorld s out) c i n0 n1 n2 Hwf Hs)).
    rewrite Hsame, apply_update_updated.
    apply (updated_eq n0 n1 n2 N Hn0 Hn1 HN s i (repeat c n2) out).
    + split; [exact Hc|split; [exact Hs|exact Hnum]].
    + apply repeat_length.
Qed.

Lemma epoch_accepts (i : Z) :
  forall (l : list (list R)) (s : SOM) (out : list Z),
    Forall (fun u => length u = n2 \/ length u = 1%nat) l ->
    ready n0 n1 n2 N s ->
    for_ l (fun u => teach_step u i) (mkWorld s out) =
      (inr tt, mkWorld (fold_left apply_update (map (pair i) l) s) out) /\
    ready n0 n1 n2 N (fold_left apply_update (map (pair i) l) s).
Proof.
  induction l as [|u l IH]; intros s out Hl Hr; simpl.
  - split; [reflexivity|exact Hr].
  - apply Forall_cons_iff in Hl. destruct Hl as [Hu Hl'].
    destruct (teach_step_accepts s out i u Hr Hu) as [E R'].
    unfold bind. rewrite E. apply IH; assumption.
Qed.
End Accepted.

(** C8, amended.  On a lattice of shape [(n0, n1, D)] and for an input
    vector [v] whose length is neither [D] nor 1:

    - one update raises and leaves the object and the output as they
      were; the exception is [ValueError], numpy's shape error, when
      [t_const] and [num_iter] are not 0 (a zero [t_const] or [num_iter]
      can make a division raise first);
    - with [num_iter > 0], a training run on a sample set that contains
      [v] raises;
    - on a consistent non-empty lattice with [num_iter > 0], when the
      samples before [v] all have length [D] or 1, the run stops at [v]
      in epoch 0 with [ValueError], after the line of epoch 0 was
      printed, and the lattice holds the updates of the samples before
      [v] and no other.

    A vector of length 1 is not rejected: on a well-formed lattice the
    update treats [[c]] as the vector of [D] copies of [c]. *)
Theorem mismatch_aborts (n0 n1 n2 : nat) (s : SOM) (v : list R) :
  shape3 (weights s) = (n0, n1, n2) ->
  length v <> n2 -> length v <> 1%nat ->
  (forall i o,
     exists e,
       teach_step v i (mkWorld s o) = (inl e, mkWorld s o) /\
       (t_const s <> 0 -> num_iter s <> 0%Z -> e = ValueError)) /\
  (forall t_set o,
     (0 < num_iter s)%Z -> In v t_set ->
     exists e w', teach t_set (mkWorld s o) = (inl e, w')) /\
  (forall pre post o,
     (0 < n0)%nat -> (0 < n1)%nat -> consistent s -> (0 < num_iter s)%Z ->
     Forall (fun u => length u = n2 \/ length u = 1%nat) pre ->
     teach (pre ++ v :: post) (mkWorld s o) =
       (inl ValueError,
        mkWorld (fold_left apply_update (map (pair 0%Z) pre) s)
                (o ++ [0%Z]))) /\
  (forall c i w,
     wf3 (weights (self w)) ->
     shape3 (weights (self w)) = (n0, n1, n2) ->
     teach_step [c] i w = teach_step (repeat c n2) i w).
Proof.
  intros Hs Hv Hv1. split; [|split; [|split]].
  - intros i o.
    destruct (teach_step_rejects s o i v n0 n1 n2 Hs Hv Hv1) as (e & He).
    exists e. split; [exact He|]. intros Ht Hn.
    rewrite (teach_step_mismatch s o i v n0 n1 n2 Hs Ht Hn Hv Hv1) in He.
    now inversion He.
  - intros t_set o HN Hin. rewrite teach_eq. simpl self.
    destruct (range_pos _ HN) as (l & ->). simpl for_.
    unfold bind at 1. unfold bind at 1. simpl. unfold print. simpl.
    destruct (epoch_rejects n0 n1 n2 v 0 Hv Hv1 t_set
                (mkWorld s (o ++ [0%Z])) Hs Hin) as (e & w' & E).
    rewrite E. now exists e, w'.
  - intros pre post o Hn0 Hn1 Hc HN Hpre.
    assert (HN0 : num_iter s <> 0%Z) by lia.
    assert (Hready : ready n0 n1 n2 (num_iter s) s)
      by (split; [exact Hc|split; [exact Hs|reflexivity]]).
    rewrite teach_eq. simpl self.
    destruct (range_pos _ HN) as (l & ->). simpl for_.
    unfold bind at 1. unfold bind at 1. simpl. unfold print. simpl.
    rewrite for_app.
    destruct (epoch_accepts n0 n1 n2 (num_iter s) Hn0 Hn1 HN0 0 pre s
                (o ++ [0%Z]) Hpre Hready) as [E R'].
    rewrite E. simpl for_. unfold bind at 1.
    destruct R' as (Hc' & Hs' & Hnum').
    rewrite (teach_step_mismatch _ _ 0 v n0 n1 n2); auto.
    + apply Hc'. congruence.
    + congruence.
  - intros c i w Hwf Hsw.
    exact (proj2 (scalar_sample w c i n0 n1 n2 Hwf Hsw)).
Qed.

(** [mismatch_aborts] on the unit lattice: a sample of length 2 after one
    of length 3 and one of length 1. *)
Lemma mismatch_aborts_witness :
  teach [[1; 2; 3]; [4]; [1; 2]] (mkWorld unit_lattice []) =
    (inl ValueError,
     mkWorld (fold_left apply_update [(0%Z, [1; 2; 3]); (0%Z, [4])]
                unit_lattice)
             [0%Z]).
Proof.
  destruct (mismatch_aborts 1 1 3 unit_lattice [1; 2])
    as (_ & _ & E & _).
  - reflexivity.
  - simpl. lia.
  - simpl. lia.
  - apply (E [[1; 2; 3]; [4]] [] []).
    + lia.
    + lia.
    + apply unit_lattice_ready.
    + simpl. lia.
    + constructor; [left; reflexivity|].
      constructor; [right; reflexivity|constructor].
Defined.

(** ** [t_step] is never read *)

Lemma blind_ret {A : Type} (a : A) : blind (ret a).
Proof. intros ts w. reflexivity. Qed.

Lemma blind_lift {A : Type} (r : result A) : blind (lift r).
Proof. intros ts w. reflexivity. Qed.

Lemma blind_attr {A : Type} (f : SOM -> A) :
  (forall ts s, f (set_t_step ts s) = f s) -> blind (attr f).
Proof. intros H ts w. unfold attr. simpl. now rewrite H. Qed.

Lemma blind_set_weights (a : ndarray3 R) : blind (set_weights a).
Proof. intros ts w. reflexivity. Qed.

Lemma blind_print (i : Z) : blind (print i).
Proof. intros ts w. reflexivity. Qed.

Lemma blind_bind {A B : Type} (m : M A) (k : A -> M B) :
  blind m -> (forall a, blind (k a)) -> blind (bind m k).
Proof.
  intros Hm Hk ts w. unfold bind. rewrite Hm.
  destruct (m w) as [[e|a] w']; simpl; [reflexivity|apply Hk].
Qed.

Lemma blind_for {A : Type} (l : list A) (body : A -> M unit) :
  (forall x, blind (body x)) -> blind (for_ l body).
Proof.
  intros H. induction l as [|x l IH]; simpl.
  - apply blind_ret.
  - apply blind_bind; [apply H|intros _; exact IH].
Qed.

Create HintDb blind.
#[local] Hint Resolve blind_ret blind_lift blind_set_weights blind_print
  : blind.

Ltac blind_step :=
  first [ apply blind_bind; [|intros ?]
        | apply blind_attr; reflexivity
        | apply blind_for; intros ?
        | solve [auto with blind] ].

Lemma blind_get_bmu (v : list R) : blind (get_bmu v).
Proof. unfold get_bmu. repeat blind_step. Qed.

Lemma blind_get_bmu_dist (v : list R) : blind (get_bmu_dist v).
Proof.
  unfold get_bmu_dist. apply blind_bind; [blind_step|]. intros w.
  destruct (shape3 w) as [[x y] rgb].
  apply blind_bind; [apply blind_get_bmu|intros bmu]. repeat blind_step.
Qed.

Lemma blind_get_nbhood_radius (i : Z) : blind (get_nbhood_radius i).
Proof. unfold get_nbhood_radius. repeat blind_step. Qed.

Lemma blind_teach_row (v : list R) (i : Z) : blind (teach_row v i).
Proof.
  unfold teach_row.
  apply blind_bind; [apply blind_get_nbhood_radius|intros r].
  apply blind_bind; [apply blind_get_bmu_dist|intros d].
  repeat blind_step.
Qed.

Lemma blind_teach_step (v : list R) (i : Z) : blind (teach_step v i).
Proof.
  unfold teach_step. apply blind_bind; [blind_step|intros w].
  apply blind_bind; [apply blind_teach_row|intros d]. repeat blind_step.
Qed.

Lemma blind_teach (t_set : list (list R)) : blind (teach t_set).
Proof.
  unfold teach. apply blind_bind; [blind_step|intros n].
  apply blind_for. intros i. apply blind_bind.
  - destruct (i mod 10 =? 0)%Z; auto with blind.
  - intros _. apply blind_for. intros j. apply blind_teach_step.
Qed.

Lemma init_t_step (rng : nat -> Z) (x y d N ts ts' : Z) :
  __init__ rng x y d N ts' =
    match __init__ rng x y d N ts with
    | inl e => inl e
    | inr s => inr (set_t_step ts' s)
    end.
Proof.
  unfold __init__.
  destruct ((x <? 0)%Z || (y <? 0)%Z || (d <? 0)%Z); [reflexivity|].
  destruct (math_log _) as [e|l]; [reflexivity|].
  destruct (truediv _ _) as [e|tc]; reflexivity.
Qed.

(** C9.  Two runs that differ in the [t_step] argument only (same draws of
    the generator, same samples) either both fail at construction with
    the same error, or produce objects on which [teach] gives the same
    outcome, the same trained lattice and the same output. *)
Theorem t_step_has_no_effect (rng : nat -> Z) (x y d N ts1 ts2 : Z)
    (t_set : list (list R)) (out : list Z) :
  match __init__ rng x y d N ts1, __init__ rng x y d N ts2 with
  | inr s1, inr s2 =>
      let r1 := teach t_set (mkWorld s1 out) in
      let r2 := teach t_set (mkWorld s2 out) in
      fst r1 = fst r2 /\
      weights (self (snd r1)) = weights (self (snd r2)) /\
      stdout (snd r1) = stdout (snd r2)
  | inl e1, inl e2 => e1 = e2
  | _, _ => False
  end.
Proof.
  rewrite (init_t_step rng x y d N ts1 ts2).
  destruct (__init__ rng x y d N ts1) as [e|s]; [reflexivity|].
  cbv zeta.
  change (mkWorld (set_t_step ts2 s) out) with (retag ts2 (mkWorld s out)).
  rewrite (blind_teach t_set ts2 (mkWorld s out)).
  simpl. auto.
Qed.

(** ** What the methods leave alone *)

Lemma teach_one_sample (v : list R) :
  length v = 3%nat ->
  teach [v] (mkWorld unit_lattice []) =
    (inr tt, mkWorld (updated unit_lattice (0%Z, v)) [0%Z]).
Proof.
  intros Hv. rewrite teach_eq.
  apply (epochs_run 1 1 3 1 [v] ltac:(lia) ltac:(lia) ltac:(lia)
           ltac:(repeat constructor; exact Hv) [0%Z] unit_lattice []
           unit_lattice_ready).
Qed.

(** C10.  [get_bmu], [get_bmu_dist], [get_nbhood_radius] and [teach_row]
    return with the object and the output as they found them, whatever
    they return or raise; [teach_row] hands the change back as its value.
    [teach] does change the lattice: one epoch on the sample [[10; 0; 0]]
    turns the cell [[0; 0; 0]] of the unit lattice into [[10; 0; 0]]. *)
Theorem only_teach_mutates :
  (forall v w, snd (get_bmu v w) = w) /\
  (forall v w, snd (get_bmu_dist v w) = w) /\
  (forall i w, snd (get_nbhood_radius i w) = w) /\
  (forall v i w, snd (teach_row v i w) = w) /\
  (exists s',
     teach [[10; 0; 0]] (mkWorld unit_lattice []) =
       (inr tt, mkWorld s' [0%Z]) /\
     cell (weights unit_lattice) 0 0 = [0; 0; 0] /\
     cell (weights s') 0 0 = [10; 0; 0] /\
     weights s' <> weights unit_lattice).
Proof.
  split; [exact get_bmu_frame|]. split; [exact get_bmu_dist_frame|].
  split; [exact get_nbhood_radius_frame|]. split; [exact teach_row_frame|].
  destruct (teach_step_bmu_cell 1 1 3 1 ltac:(lia) ltac:(lia) ltac:(lia)
              unit_lattice [] 0 [10; 0; 0] unit_lattice_ready eq_refl)
    as (bmu & s' & _ & E & _ & Hbx & Hby & _ & Hcell).
  assert (Hbmu : bmu = (0, 0)%nat) by (destruct bmu; simpl in *; f_equal; lia).
  subst bmu. simpl in Hcell.
  assert (Hs' : updated unit_lattice (0%Z, [10; 0; 0]) = s').
  { unfold updated. simpl fst. simpl snd. now rewrite E. }
  exists s'. split; [|split; [exact unit_lattice_cell|split; [exact Hcell|]]].
  - rewrite teach_one_sample by reflexivity. now rewrite Hs'.
  - intros Heq. rewrite Heq, unit_lattice_cell in Hcell.
    injection Hcell as H. lra.
Qed.

(** * Further properties of the class *)

(** ** Construction, decided on the arguments *)

(** X1.  [__init__] raises [ValueError] for a negative size and when all
    sizes are 0, raises [ZeroDivisionError] when the largest size is 2,
    and in every other case returns the object with the drawn weights,
    [map_radius] half the largest size and [t_const = N / ln map_radius]:
    its outcome is decided by integer tests on the arguments. *)
Theorem init_decided (rng : nat -> Z) (x y d N ts : Z) :
  __init__ rng x y d N ts = init_outcome rng x y d N ts.
Proof.
  unfold init_outcome.
  destruct ((x <? 0)%Z || (y <? 0)%Z || (d <? 0)%Z) eqn:Eneg.
  - unfold __init__. now rewrite Eneg.
  - apply orb_false_elim in Eneg. destruct Eneg as [Exy Ed].
    apply orb_false_elim in Exy. destruct Exy as [Ex Ey].
    apply Z.ltb_ge in Ex, Ey, Ed. cbv zeta.
    set (m := Z.max x (Z.max y d)).
    assert (Hm : Z.of_nat (Nat.max (Z.to_nat x)
                             (Nat.max (Z.to_nat y) (Z.to_nat d))) = m)
      by (unfold m; lia).
    destruct (Z.eqb_spec m 0) as [E0|E0].
    + apply init_radius_0; lia.
    + destruct (Z.eqb_spec m 2) as [E2|E2].
      * apply init_radius_1; lia.
      * rewrite init_ok by lia. now rewrite Hm.
Qed.

(** ** No iterations *)

Lemma teach_no_epochs (t_set : list (list R)) (w : world) :
  (num_iter (self w) <= 0)%Z -> teach t_set w = (inr tt, w).
Proof.
  intros H. rewrite teach_eq. unfold range.
  replace (Z.to_nat (num_iter (self w))) with 0%nat by lia. reflexivity.
Qed.

(** X3.  An object constructed with [num_iter = 0] has [t_const = 0]:
    [get_nbhood_radius] and [teach_row] raise [ZeroDivisionError] for
    every argument, and [teach] returns at once, with the object and the
    output untouched.  With a negative [num_iter], [teach] returns at once
    as well. *)
Theorem no_iterations (rng : nat -> Z) (x y d N ts : Z) (s : SOM) :
  __init__ rng x y d N ts = inr s ->
  (N <= 0)%Z ->
  (forall t_set out,
     teach t_set (mkWorld s out) = (inr tt, mkWorld s out)) /\
  (N = 0%Z ->
   (forall i out,
      get_nbhood_radius i (mkWorld s out)
      = (inl ZeroDivisionError, mkWorld s out)) /\
   (forall v i out,
      teach_row v i (mkWorld s out)
      = (inl ZeroDivisionError, mkWorld s out))).
Proof.
  intros E HN.
  destruct (init_fields _ _ _ _ _ _ _ E) as (_ & Ht & Hn & _).
  split.
  - intros t_set out. apply teach_no_epochs. simpl. lia.
  - intros ->.
    assert (Htc : t_const s = 0) by (rewrite Ht; unfold Rdiv; ring).
    split.
    + intros i out. now apply get_nbhood_radius_zero.
    + intros v i out. unfold teach_row, bind.
      now rewrite get_nbhood_radius_zero.
Qed.

(** [no_iterations] at [SOM(1, 1, 3, 0, 1)]. *)
Lemma no_iterations_witness :
  exists s,
    __init__ zero_rng 1 1 3 0 1 = inr s /\
    teach [[1; 2; 3]] (mkWorld s []) = (inr tt, mkWorld s []) /\
    teach_row [1; 2; 3] 0 (mkWorld s [])
    = (inl ZeroDivisionError, mkWorld s []).
Proof.
  destruct (__init__ zero_rng 1 1 3 0 1) as [e|s] eqn:E.
  { exfalso. rewrite init_ok in E by lia. discriminate. }
  exists s. split; [reflexivity|].
  destruct (no_iterations zero_rng 1 1 3 0 1 s E ltac:(lia)) as [Hteach Hzero].
  split; [apply Hteach|]. apply (Hzero eq_refl).
Defined.

(** ** A lattice without cells *)

Lemma concat_empty_rows {A : Type} (rows : list (list A)) :
  Forall (fun r => length r = 0%nat) rows -> concat rows = [].
Proof.
  induction 1 as [|r rows Hr _ IH]; [reflexivity|].
  destruct r; [exact IH|discriminate].
Qed.

Lemma get_bmu_empty (s : SOM) (out : list Z) (v : list R) (n0 n1 n2 : nat) :
  wf3 (weights s) -> shape3 (weights s) = (n0, n1, n2) ->
  (n0 = 0 \/ n1 = 0)%nat ->
  get_bmu v (mkWorld s out) = (inl ValueError, mkWorld s out).
Proof.
  intros Hwf Hs Hempty.
  destruct (broadcast n2 (length v)) as [e|d] eqn:Eb.
  - rewrite (broadcast_error _ _ _ Eb) in Eb.
    exact (get_bmu_shape_error v (mkWorld s out) n0 n1 n2 ValueError Hs Eb).
  - rewrite (get_bmu_eq v (mkWorld s out) n0 n1 n2 d Hs Eb). simpl self.
    rewrite concat_empty_rows; [reflexivity|].
    rewrite Forall_map.
    pose proof (wf3_length _ _ _ _ Hs Hwf) as Hl.
    pose proof (wf3_rows _ _ _ _ Hs Hwf) as Hr.
    destruct Hempty as [->| ->].
    + destruct (data3 (weights s)); [constructor|discriminate].
    + eapply Forall_impl; [|exact Hr]. simpl. intros r H.
      now rewrite length_map.
Qed.

(** X4.  On a lattice with no cells (an extent of the grid is 0, as after
    [SOM(0, 5, 3, 10, 1)]) [get_bmu] raises [ValueError] for every input
    vector, whatever its length, and a training run with at least one
    epoch and one sample stops at its first sample with that error,
    after printing the line of epoch 0. *)
Theorem empty_lattice_raises (s : SOM) (out : list Z) (v : list R)
    (n0 n1 n2 : nat) :
  consistent s -> shape3 (weights s) = (n0, n1, n2) ->
  (n0 = 0 \/ n1 = 0)%nat ->
  get_bmu v (mkWorld s out) = (inl ValueError, mkWorld s out) /\
  ((0 < num_iter s)%Z ->
   forall rest,
     teach (v :: rest) (mkWorld s out)
     = (inl ValueError, mkWorld s (out ++ [0%Z]))).
Proof.
  intros Hc Hs Hempty. destruct Hc as [Hwf Hrad Htc].
  split; [exact (get_bmu_empty s out v n0 n1 n2 Hwf Hs Hempty)|].
  intros HN rest. rewrite teach_eq. simpl self.
  destruct (range_pos _ HN) as (l & ->). simpl for_.
  unfold bind at 1. unfold bind at 1. simpl. unfold print. simpl.
  unfold bind at 1. unfold teach_step, bind, attr. cbv beta iota.
  rewrite (teach_row_bmu_error v 0 (mkWorld s (out ++ [0%Z])) ValueError).
  - reflexivity.
  - simpl. apply Htc. lia.
  - exact (get_bmu_empty s _ v n0 n1 n2 Hwf Hs Hempty).
Qed.

(** [empty_lattice_raises] at [SOM(0, 5, 3, 10, 1)]. *)
Lemma empty_lattice_raises_witness :
  exists s,
    __init__ zero_rng 0 5 3 10 1 = inr s /\
    get_bmu [1; 2; 3] (mkWorld s []) = (inl ValueError, mkWorld s []) /\
    teach [[1; 2; 3]] (mkWorld s []) = (inl ValueError, mkWorld s [0%Z]).
Proof.
  destruct (__init__ zero_rng 0 5 3 10 1) as [e|s] eqn:E.
  { exfalso. rewrite init_ok in E by lia. discriminate. }
  exists s. split; [reflexivity|].
  destruct (init_consistent zero_rng 0 5 3 10 1
              ltac:(lia) ltac:(lia) ltac:(lia) s E) as (Hc & Hs & Hn).
  destruct (empty_lattice_raises s [] [1; 2; 3] _ _ _ Hc Hs) as [Hb Ht].
  - left. reflexivity.
  - split; [exact Hb|]. apply Ht. rewrite Hn. lia.
Defined.

(** ** What [teach] never touches *)

(** X5.  Whatever the samples and whether it returns or raises, [teach]
    leaves [num_iter], [map_radius], [t_const], [t_step] and the shape of
    the weights as they were, and only appends to the output. *)
Theorem teach_same_frame (t_set : list (list R)) (w : world) :
  same_frame w (snd (teach t_set w)).
Proof.
  rewrite teach_eq. apply for_same_frame. clear w. intros i w.
  unfold bind.
  assert (Hp : same_frame w
                 (snd ((if (i mod 10 =? 0)%Z then print i else ret tt) w))).
  { destruct (i mod 10 =? 0)%Z; [|apply same_frame_refl].
    unfold print, same_frame. simpl. repeat split. now exists [i]. }
  destruct ((if (i mod 10 =? 0)%Z then print i else ret tt) w)
    as [[e|u] w1]; simpl in *; [exact Hp|].
  apply (same_frame_trans _ _ _ Hp).
  apply for_same_frame. intros v w2. apply teach_step_same_frame.
Qed.

(** ** Distances on the grid *)

Lemma grid_dist_nonneg (bmu : nat * nat) (x y : nat) :
  (0 <= grid_dist bmu x y)%Z.
Proof. unfold grid_dist. nia. Qed.

Lemma grid_dist_zero (bmu : nat * nat) (x y : nat) :
  grid_dist bmu x y = 0%Z <-> (x, y) = bmu.
Proof.
  unfold grid_dist. destruct bmu as [bx bY]. simpl. split.
  - intros H. f_equal; nia.
  - intros H. inversion H. subst. nia.
Qed.

(** ** Training again *)

(** X10.  A training run leaves a consistent object, and a second call of
    [teach] on it does not resume the decay: it runs the whole schedule
    again from iteration 0, so that two calls in a row apply the schedule
    twice and print the epoch lines twice. *)
Theorem teach_again_restarts (n0 n1 n2 : nat) (s : SOM) (out : list Z)
    (t_set : list (list R)) :
  (0 < n0)%nat -> (0 < n1)%nat ->
  consistent s -> shape3 (weights s) = (n0, n1, n2) ->
  (0 <= num_iter s)%Z ->
  Forall (fun v => length v = n2) t_set ->
  let sched := schedule (num_iter s) t_set in
  consistent (fold_left updated sched s) /\
  (teach t_set ;; teach t_set) (mkWorld s out)
  = (inr tt,
     mkWorld (fold_left updated (sched ++ sched) s)
             (out ++ printed (num_iter s) ++ printed (num_iter s))).
Proof.
  intros Hn0 Hn1 Hc Hs HN Hall sched.
  destruct (Z.eq_dec (num_iter s) 0) as [E|E].
  - assert (Hsched : sched = []) by (unfold sched; rewrite E; reflexivity).
    rewrite Hsched. simpl. split; [exact Hc|].
    unfold bind, printed. rewrite teach_no_epochs by (simpl; lia).
    rewrite teach_no_epochs by (simpl; lia).
    rewrite E. simpl. now rewrite app_nil_r.
  - assert (Hready : ready n0 n1 n2 (num_iter s) s)
      by (split; [exact Hc|split; [exact Hs|reflexivity]]).
    pose proof (fold_updated_ready n0 n1 n2 _ Hn0 Hn1 E sched s
                  (schedule_lengths _ _ _ Hall) Hready) as Hmid.
    split; [exact (proj1 Hmid)|].
    unfold bind. rewrite teach_eq. simpl self.
    rewrite (epochs_run n0 n1 n2 (num_iter s) t_set
               Hn0 Hn1 E Hall (range (num_iter s)) s out Hready).
    change (flat_map (fun i => map (pair i) t_set) (range (num_iter s)))
      with sched.
    rewrite teach_eq. simpl self.
    destruct Hmid as (Hc' & Hs' & Hn'). rewrite Hn'.
    rewrite (epochs_run n0 n1 n2 (num_iter s) t_set
               Hn0 Hn1 E Hall (range (num_iter s)) _ _
               (conj Hc' (conj Hs' Hn'))).
    change (flat_map (fun i => map (pair i) t_set) (range (num_iter s)))
      with sched.
    rewrite fold_left_app. unfold printed. now rewrite <- app_assoc.
Qed.

(** [teach_again_restarts] on the unit lattice with one sample. *)
Lemma teach_again_restarts_witness :
  (teach [[10; 0; 0]] ;; teach [[10; 0; 0]]) (mkWorld unit_lattice [])
  = (inr tt,
     mkWorld (fold_left updated [(0%Z, [10; 0; 0]); (0%Z, [10; 0; 0])]
                        unit_lattice)
             [0%Z; 0%Z]).
Proof.
  destruct (teach_again_restarts 1 1 3 unit_lattice [] [[10; 0; 0]])
    as [_ E].
  - lia.
  - lia.
  - apply unit_lattice_ready.
  - reflexivity.
  - simpl. lia.
  - repeat constructor.
  - exact E.
Defined.

(** ** A sample of length 1 *)

(** X11.  A sample of length 1 is never rejected: [get_bmu], [teach_row]
    and the update treat [[c]] exactly as the constant vector
    [[c; ...; c]] of the lattice's dimensionality, with the same result
    or error and the same effect. *)
Theorem scalar_sample_is_constant_vector (w : world) (c : R) (i : Z)
    (n0 n1 n2 : nat) :
  wf3 (weights (self w)) ->
  shape3 (weights (self w)) = (n0, n1, n2) ->
  get_bmu [c] w = get_bmu (repeat c n2) w /\
  teach_row [c] i w = teach_row (repeat c n2) i w /\
  teach_step [c] i w = teach_step (repeat c n2) i w.
Proof.
  intros Hwf Hs.
  assert (Hb : forall w', self w' = self w ->
                 get_bmu [c] w' = get_bmu (repeat c n2) w').
  { intros w' Hw'. unfold get_bmu, bind, attr, lift. rewrite Hw'.
    now rewrite (op_vec_scalar _ c n0 n1 n2 Hwf Hs). }
  assert (Hd : get_bmu_dist [c] w = get_bmu_dist (repeat c n2) w).
  { unfold get_bmu_dist, bind, attr.
    destruct (shape3 (weights (self w))) as [[x y] rgb].
    now rewrite (Hb w eq_refl). }
  assert (Hr : teach_row [c] i w = teach_row (repeat c n2) i w).
  { unfold teach_row, bind.
    pose proof (get_nbhood_radius_frame i w) as Hf.
    destruct (get_nbhood_radius i w) as [[e|r] w1]; simpl in Hf; subst w1;
      [reflexivity|].
    rewrite Hd.
    pose proof (get_bmu_dist_frame (repeat c n2) w) as Hf.
    destruct (get_bmu_dist (repeat c n2) w) as [[e|d] w1]; simpl in Hf;
      subst w1; [reflexivity|].
    unfold attr, lift.
    destruct (truediv _ _); [reflexivity|].
    now rewrite (vec_op_scalar _ c n0 n1 n2 Hwf Hs). }
  split; [exact (Hb w eq_refl)|]. split; [exact Hr|].
  unfold teach_step, bind, attr. cbv beta iota. now rewrite Hr.
Qed.

(** [scalar_sample_is_constant_vector] on the unit lattice. *)
Lemma scalar_sample_is_constant_vector_witness :
  teach_step [5] 0 (mkWorld unit_lattice [])
  = teach_step [5; 5; 5] 0 (mkWorld unit_lattice []).
Proof.
  destruct (scalar_sample_is_constant_vector (mkWorld unit_lattice []) 5 0
              1 1 3) as (_ & _ & E).
  - apply randint_wf.
  - reflexivity.
  - exact E.
Defined.

(** ** The grid distances *)

(** X12.  On a non-empty lattice and for a sample of its dimensionality,
    [get_bmu_dist] returns an array of the grid's shape whose entry at
    [(x, y)] is the squared distance [(x - bx)^2 + (y - by)^2] to the best
    matching unit [(bx, by)] that [get_bmu] returns; it is 0 at that
    coordinate and nowhere else. *)
Theorem get_bmu_dist_entries (w : world) (v : list R) (n0 n1 n2 : nat) :
  wf3 (weights (self w)) ->
  shape3 (weights (self w)) = (n0, n1, n2) ->
  (0 < n0)%nat -> (0 < n1)%nat ->
  length v = n2 ->
  exists bmu d,
    get_bmu v w = (inr bmu, w) /\
    get_bmu_dist v w = (inr d, w) /\
    shape2 d = (n0, n1) /\
    length (data2 d) = n0 /\
    forall x y, (x < n0)%nat -> (y < n1)%nat ->
      length (nth x (data2 d) []) = n1 /\
      nth y (nth x (data2 d) []) 0%Z
      = ((Z.of_nat x - Z.of_nat (fst bmu)) ^ 2
         + (Z.of_nat y - Z.of_nat (snd bmu)) ^ 2)%Z /\
      (nth y (nth x (data2 d) []) 0%Z = 0%Z <-> (x, y) = bmu).
Proof.
  intros Hwf Hs Hn0 Hn1 Hv.
  destruct (get_bmu_spec w v n0 n1 n2 Hwf Hs Hn0 Hn1 Hv)
    as (bmu & Hb & _).
  eexists bmu, _. split; [exact Hb|].
  split; [exact (get_bmu_dist_eq v w n0 n1 n2 bmu Hs Hb)|].
  split; [reflexivity|]. simpl data2.
  split; [now rewrite length_map, length_seq|].
  intros x y Hx Hy.
  rewrite (nth_map_seq _ n0 x) by assumption.
  split; [now rewrite length_map, length_seq|].
  rewrite (nth_map_seq _ n1 y) by assumption.
  split.
  - unfold grid_dist. lia.
  - apply grid_dist_zero.
Qed.

(** [get_bmu_dist_entries] on the 2 x 2 lattice of equal cells. *)
Lemma get_bmu_dist_entries_witness :
  exists bmu d,
    get_bmu [3] (mkWorld flat_lattice []) =
      (inr bmu, mkWorld flat_lattice []) /\
    get_bmu_dist [3] (mkWorld flat_lattice []) =
      (inr d, mkWorld flat_lattice []) /\
    shape2 d = (2, 2)%nat.
Proof.
  destruct (get_bmu_dist_entries (mkWorld flat_lattice []) [3] 2 2 1)
    as (bmu & d & Hb & Hd & Hsh & _).
  - split; [reflexivity|]. repeat constructor.
  - reflexivity.
  - lia.
  - lia.
  - reflexivity.
  - exists bmu, d. repeat split; assumption.
Defined.

(** * The picture of the trained map *)

Section Picture.
Import Script.

(** ** Lists with a piece replaced *)

Lemma splice_length {A : Type} (l b : list A) (k : nat) :
  (k + length b <= length l)%nat ->
  length (firstn k l ++ b ++ skipn (k + length b) l) = length l.
Proof.
  intros H. rewrite !length_app, length_firstn, length_skipn. lia.
Qed.

Lemma splice_nth {A : Type} (l b : list A) (k i : nat) (d : A) :
  (k + length b <= length l)%nat ->
  nth i (firstn k l ++ b ++ skipn (k + length b) l) d =
    if (k <=? i) && (i <? k + length b) then nth (i - k) b d
    else nth i l d.
Proof.
  intros H.
  assert (Hk : length (firstn k l) = k) by (rewrite length_firstn; lia).
  destruct (Nat.leb_spec k i) as [Hki|Hki]; simpl.
  - rewrite app_nth2 by lia. rewrite Hk.
    destruct (Nat.ltb_spec i (k + length b)) as [Hi|Hi].
    + now rewrite app_nth1 by lia.
    + rewrite app_nth2 by lia. rewrite nth_skipn. f_equal. lia.
  - rewrite app_nth1 by lia. rewrite nth_firstn.
    destruct (Nat.ltb_spec i k); [reflexivity|lia].
Qed.

(** ** Indexing, reshaping, writing a block *)

Lemma getitem_nat {A : Type} (a : list A) (k : nat) (d : A) :
  (k < length a)%nat -> getitem a (Z.of_nat k) = inr (nth k a d).
Proof.
  intros H. unfold getitem.
  destruct (Z.leb_spec 0 (Z.of_nat k)); [|lia].
  destruct (Z.ltb_spec (Z.of_nat k) (Z.of_nat (length a))); [|lia].
  simpl. rewrite Nat2Z.id. now rewrite (nth_error_nth' a d H).
Qed.

Lemma getitem_beyond {A : Type} (a : list A) (i : Z) :
  (Z.of_nat (length a) <= i)%Z -> getitem a i = inl IndexError.
Proof.
  intros H. unfold getitem.
  destruct (Z.ltb_spec i (Z.of_nat (length a))); [lia|].
  rewrite andb_false_r.
  destruct (Z.ltb_spec i 0); [lia|]. now rewrite andb_false_r.
Qed.

Lemma wf2_pixel_row (m : ndarray2 R) (nr nc r : nat) :
  wf2 m -> shape2 m = (nr, nc) -> (r < nr)%nat ->
  length (nth r (data2 m) []) = nc.
Proof.
  intros [Hl Hrows] Hs Hr. rewrite Hs in *. simpl in *.
  rewrite Forall_forall in Hrows. apply Hrows, nth_In. lia.
Qed.

Lemma zeros_wf (r c : nat) : wf2 (zeros r c).
Proof.
  unfold wf2, zeros. simpl. split; [apply repeat_length|].
  apply Forall_forall. intros row Hrow. apply repeat_spec in Hrow.
  subst row. apply repeat_length.
Qed.

Lemma zeros_pixel (r c a b : nat) : pixel (zeros r c) a b = 0.
Proof.
  unfold pixel, zeros. cbn [data2].
  destruct (Nat.lt_ge_cases a r) as [Ha|Ha].
  - rewrite (nth_indep _ [] (repeat 0 c)) by now rewrite repeat_length.
    rewrite nth_repeat. apply nth_repeat.
  - rewrite (nth_overflow (repeat (repeat 0 c) r))
      by now rewrite repeat_length.
    now destruct b.
Qed.

Lemma reshape_ok (v : list R) (r c : nat) :
  length v = (r * c)%nat ->
  exists b,
    reshape v r c = inr b /\ shape2 b = (r, c) /\ wf2 b /\
    forall i j, (i < r)%nat -> (j < c)%nat ->
      pixel b i j = nth (i * c + j) v 0.
Proof.
  intros H. unfold reshape. rewrite H, Nat.eqb_refl.
  eexists. split; [reflexivity|]. split; [reflexivity|]. split.
  - unfold wf2. simpl. split; [now rewrite length_map, length_seq|].
    rewrite Forall_map, Forall_forall. intros i Hi. apply in_seq in Hi.
    rewrite length_firstn, length_skipn. nia.
  - intros i j Hi Hj. unfold pixel. simpl.
    rewrite (nth_map_seq _ r i) by assumption.
    rewrite nth_firstn. destruct (Nat.ltb_spec j c); [|lia].
    now rewrite nth_skipn.
Qed.

Lemma reshape_wrong_size (v : list R) (r c : nat) :
  length v <> (r * c)%nat -> reshape v r c = inl (Numpy ValueError).
Proof.
  intros H. unfold reshape.
  destruct (Nat.eqb_spec (length v) (r * c)); [contradiction|reflexivity].
Qed.

Lemma setitem_block_ok (m block : ndarray2 R) (nr nc bh bw r0 c0 : nat) :
  wf2 m -> shape2 m = (nr, nc) ->
  wf2 block -> shape2 block = (bh, bw) ->
  (r0 + bh <= nr)%nat -> (c0 + bw <= nc)%nat ->
  exists m',
    setitem_block m r0 (r0 + bh) c0 (c0 + bw) block = inr m' /\
    shape2 m' = (nr, nc) /\ wf2 m' /\
    forall r c,
      pixel m' r c =
        if (r0 <=? r) && (r <? r0 + bh) && (c0 <=? c) && (c <? c0 + bw)
        then pixel block (r - r0) (c - c0)
        else pixel m r c.
Proof.
  intros [Hml Hmrows] Hms [Hbl Hbrows] Hbs Hr Hc.
  rewrite Hms in Hml, Hmrows. rewrite Hbs in Hbl, Hbrows. simpl in *.
  unfold setitem_block. rewrite Hms, Hbs. unfold slice_len, slice_start.
  replace (Nat.min (r0 + bh) nr - Nat.min r0 nr)%nat with bh by lia.
  replace (Nat.min (c0 + bw) nc - Nat.min c0 nc)%nat with bw by lia.
  replace (Nat.min r0 nr) with r0 by lia.
  replace (Nat.min c0 nc) with c0 by lia.
  rewrite !Nat.eqb_refl. simpl andb.
  set (f := fun row brow : list R =>
              firstn c0 row ++ brow ++ skipn (c0 + bw) row).
  set (mid := firstn bh (skipn r0 (data2 m))).
  set (new := map2 f mid (data2 block)).
  assert (Hmid : length mid = bh)
    by (unfold mid; rewrite length_firstn, length_skipn; lia).
  assert (Hnew : length new = bh)
    by (unfold new; rewrite map2_length; lia).
  assert (Hmidrow : forall k, (k < bh)%nat ->
            nth k mid [] = nth (r0 + k) (data2 m) []).
  { intros k Hk. unfold mid. rewrite nth_firstn.
    destruct (Nat.ltb_spec k bh); [|lia]. apply nth_skipn. }
  assert (Hrowlen : forall r, (r < nr)%nat ->
            length (nth r (data2 m) []) = nc).
  { intros r Hr'. rewrite Forall_forall in Hmrows.
    apply Hmrows, nth_In. lia. }
  assert (Hbrowlen : forall k, (k < bh)%nat ->
            length (nth k (data2 block) []) = bw).
  { intros k Hk. rewrite Forall_forall in Hbrows.
    apply Hbrows, nth_In. lia. }
  assert (Hnewrow : forall k, (k < bh)%nat ->
            nth k new [] =
              f (nth (r0 + k) (data2 m) []) (nth k (data2 block) [])).
  { intros k Hk. unfold new.
    rewrite (nth_map2 f mid (data2 block) k [] [] []) by lia.
    now rewrite Hmidrow. }
  assert (Hdata : forall r d,
            nth r (firstn r0 (data2 m) ++ new ++ skipn (r0 + bh) (data2 m)) d
            = if (r0 <=? r) && (r <? r0 + bh) then nth (r - r0) new d
              else nth r (data2 m) d).
  { intros r d. rewrite <- Hnew. apply splice_nth. lia. }
  eexists. split; [reflexivity|]. split; [reflexivity|]. split.
  - unfold wf2. cbn [data2 shape2 fst snd]. split.
    + rewrite <- Hnew. rewrite splice_length; lia.
    + apply Forall_nth. intros r d Hlen.
      rewrite <- Hnew in Hlen. rewrite splice_length in Hlen by lia.
      rewrite Hdata.
      destruct (Nat.leb_spec r0 r) as [H1|H1];
        destruct (Nat.ltb_spec r (r0 + bh)) as [H2|H2]; cbn [andb].
      * rewrite (nth_indep _ d []) by lia.
        rewrite Hnewrow by lia. unfold f.
        rewrite <- (Hbrowlen (r - r0)%nat) by lia.
        rewrite splice_length; rewrite ?Hbrowlen, ?Hrowlen; lia.
      * rewrite (nth_indep _ d []) by lia. apply Hrowlen. lia.
      * rewrite (nth_indep _ d []) by lia. apply Hrowlen. lia.
      * lia.
  - intros r c. unfold pixel. cbn [data2]. rewrite Hdata.
    destruct (Nat.leb_spec r0 r) as [H1|H1];
      destruct (Nat.ltb_spec r (r0 + bh)) as [H2|H2]; cbn [andb];
      try reflexivity.
    rewrite Hnewrow by lia. unfold f.
    replace (r0 + (r - r0))%nat with r by lia.
    rewrite <- (Hbrowlen (r - r0)%nat) by lia.
    rewrite splice_nth by (rewrite ?Hbrowlen, ?Hrowlen; lia).
    rewrite Hbrowlen by lia. reflexivity.
Qed.

(** ** One node, then all of them *)

Lemma for_each_app {A : Type}
    (body : A -> ndarray2 R -> failure + ndarray2 R) (a b : list A)
    (m : ndarray2 R) :
  for_each (a ++ b) body m =
    match for_each a body m with
    | inl e => inl e
    | inr m' => for_each b body m'
    end.
Proof.
  revert m. induction a as [|x a IH]; intros m; simpl; [reflexivity|].
  destruct (body x m) as [e|m']; [reflexivity|apply IH].
Qed.

Lemma for_each_map {A B : Type} (h : A -> B)
    (body : B -> ndarray2 R -> failure + ndarray2 R) (l : list A)
    (m : ndarray2 R) :
  for_each (map h l) body m = for_each l (fun x => body (h x)) m.
Proof.
  revert m. induction l as [|x l IH]; intros m; simpl; [reflexivity|].
  destruct (body (h x) m); [reflexivity|apply IH].
Qed.

Lemma for_each_nested {A B : Type}
    (body : A -> B -> ndarray2 R -> failure + ndarray2 R)
    (la : list A) (lb : list B) (m : ndarray2 R) :
  for_each la (fun i => for_each lb (body i)) m =
  for_each (flat_map (fun i => map (pair i) lb) la)
           (fun p => body (fst p) (snd p)) m.
Proof.
  revert m. induction la as [|i la IH]; intros m; simpl; [reflexivity|].
  rewrite for_each_app, for_each_map. simpl.
  change (fun x : B => body i x) with (body i).
  destruct (for_each lb (body i) m) as [e|m']; [reflexivity|apply IH].
Qed.

Lemma tile_eq_dec (p q : nat * nat) : {p = q} + {p <> q}.
Proof. decide equality; apply Nat.eq_dec. Qed.

Section Nodes.
Variables (weights : ndarray3 R) (n0 n1 : nat).
Hypothesis Hshape : shape3 weights = (n0, n1, 784%nat).
Hypothesis Hwf : wf3 weights.

Lemma place_node_ok (m : ndarray2 R) (i j : nat) :
  wf2 m -> shape2 m = (560, 560)%nat ->
  (i < 20)%nat -> (j < 20)%nat -> (i < n0)%nat -> (j < n1)%nat ->
  exists m',
    place_node weights (Z.of_nat i) (Z.of_nat j) m = inr m' /\
    shape2 m' = (560, 560)%nat /\ wf2 m' /\
    forall i' j' a b,
      (a < 28)%nat -> (b < 28)%nat ->
      pixel m' (i' * 28 + a) (j' * 28 + b) =
        if Nat.eqb i' i && Nat.eqb j' j
        then nth (a * 28 + b) (cell weights i j) 0
        else pixel m (i' * 28 + a) (j' * 28 + b).
Proof.
  intros Hm Hms Hi Hj Hi0 Hj1.
  pose proof (wf3_length weights n0 n1 784 Hshape Hwf) as Hl.
  pose proof (wf3_row_length weights n0 n1 784 Hshape Hwf i Hi0) as Hr.
  pose proof (wf3_cell_length weights n0 n1 784 Hshape Hwf i j Hi0 Hj1) as Hc.
  unfold place_node.
  rewrite (getitem_nat (data3 weights) i []) by lia.
  rewrite (getitem_nat (nth i (data3 weights) []) j []) by lia.
  destruct (reshape_ok (nth j (nth i (data3 weights) []) []) 28 28)
    as (blk & Eb & Hbs & Hbwf & Hbpix).
  { rewrite Hc. reflexivity. }
  rewrite Eb.
  replace (Z.to_nat (Z.of_nat i * 28)) with (i * 28)%nat by lia.
  replace (Z.to_nat (Z.of_nat i * 28 + 28)) with (i * 28 + 28)%nat by lia.
  replace (Z.to_nat (Z.of_nat j * 28)) with (j * 28)%nat by lia.
  replace (Z.to_nat (Z.of_nat j * 28 + 28)) with (j * 28 + 28)%nat by lia.
  destruct (setitem_block_ok m blk 560 560 28 28 (i * 28) (j * 28)
              Hm Hms Hbwf Hbs ltac:(lia) ltac:(lia))
    as (m' & E & Hs' & Hwf' & Hpix).
  exists m'. split; [exact E|]. split; [exact Hs'|]. split; [exact Hwf'|].
  intros i' j' a b Ha Hb. rewrite Hpix.
  destruct (Nat.eqb_spec i' i) as [->|Hne].
  - destruct (Nat.eqb_spec j' j) as [->|Hne]; cbn [andb].
    + destruct (Nat.leb_spec (i * 28) (i * 28 + a)); [|lia].
      destruct (Nat.ltb_spec (i * 28 + a) (i * 28 + 28)); [|lia].
      destruct (Nat.leb_spec (j * 28) (j * 28 + b)); [|lia].
      destruct (Nat.ltb_spec (j * 28 + b) (j * 28 + 28)); [|lia].
      cbn [andb].
      replace (i * 28 + a - i * 28)%nat with a by lia.
      replace (j * 28 + b - j * 28)%nat with b by lia.
      now rewrite Hbpix.
    + destruct (Nat.leb_spec (j * 28) (j' * 28 + b));
        destruct (Nat.ltb_spec (j' * 28 + b) (j * 28 + 28));
        rewrite ?andb_false_r; cbn [andb]; try reflexivity.
      lia.
  - destruct (Nat.leb_spec (i * 28) (i' * 28 + a));
      destruct (Nat.ltb_spec (i' * 28 + a) (i * 28 + 28));
      cbn [andb]; try reflexivity.
    lia.
Qed.

Lemma place_nodes_ok :
  forall (tiles : list (nat * nat)) (m : ndarray2 R),
    wf2 m -> shape2 m = (560, 560)%nat ->
    Forall (fun p => (fst p < 20)%nat /\ (snd p < 20)%nat /\
                     (fst p < n0)%nat /\ (snd p < n1)%nat) tiles ->
    exists m',
      for_each tiles
        (fun p => place_node weights (Z.of_nat (fst p)) (Z.of_nat (snd p)))
        m = inr m' /\
      shape2 m' = (560, 560)%nat /\ wf2 m' /\
      forall i j a b,
        (a < 28)%nat -> (b < 28)%nat ->
        (In (i, j) tiles ->
           pixel m' (i * 28 + a) (j * 28 + b)
           = nth (a * 28 + b) (cell weights i j) 0) /\
        (~ In (i, j) tiles ->
           pixel m' (i * 28 + a) (j * 28 + b)
           = pixel m (i * 28 + a) (j * 28 + b)).
Proof.
  induction tiles as [|[i0 j0] tiles IH]; intros m Hm Hms Hall.
  - exists m. split; [reflexivity|]. split; [exact Hms|].
    split; [exact Hm|]. intros i j a b _ _. split; [intros []|reflexivity].
  - apply Forall_cons_iff in Hall. destruct Hall as [(Hi & Hj & Hi0 & Hj1) Hall].
    simpl in Hi, Hj, Hi0, Hj1.
    destruct (place_node_ok m i0 j0 Hm Hms Hi Hj Hi0 Hj1)
      as (m1 & E1 & Hs1 & Hwf1 & Hpix1).
    destruct (IH m1 Hwf1 Hs1 Hall) as (m' & E & Hs' & Hwf' & Hpix).
    exists m'. split; [simpl; rewrite E1; exact E|].
    split; [exact Hs'|]. split; [exact Hwf'|].
    intros i j a b Ha Hb. destruct (Hpix i j a b Ha Hb) as [Hin Hout].
    specialize (Hpix1 i j a b Ha Hb).
    destruct (in_dec tile_eq_dec (i, j) tiles) as [Hmem|Hmem].
    + split; [intros _; exact (Hin Hmem)|].
      intros Hnot. exfalso. apply Hnot. now right.
    + rewrite (Hout Hmem). split.
      * intros [Heq|Hrest]; [|contradiction].
        inversion Heq. subst. rewrite Hpix1, !Nat.eqb_refl. reflexivity.
      * intros Hnot. rewrite Hpix1.
        destruct (Nat.eqb_spec i i0) as [->|]; [|reflexivity].
        destruct (Nat.eqb_spec j j0) as [->|]; [|reflexivity].
        exfalso. apply Hnot. now left.
Qed.
End Nodes.

Lemma range_nat (n : nat) : range (Z.of_nat n) = map Z.of_nat (seq 0 n).
Proof. unfold range. now rewrite Nat2Z.id. Qed.

Lemma in_tiles (w h i j : nat) :
  In (i, j) (flat_map (fun a => map (pair a) (seq 0 h)) (seq 0 w)) <->
  (i < w)%nat /\ (j < h)%nat.
Proof.
  rewrite in_flat_map. split.
  - intros (a & Ha & Hin). apply in_map_iff in Hin.
    destruct Hin as (b & Heq & Hb). inversion Heq. subst.
    apply in_seq in Ha, Hb. lia.
  - intros [Hi Hj]. exists i. split; [apply in_seq; lia|].
    apply in_map_iff. exists j. split; [reflexivity|apply in_seq; lia].
Qed.

Lemma map_image_tiles (weights : ndarray3 R) (w h : nat) :
  map_image weights (Z.of_nat w) (Z.of_nat h) =
  for_each (flat_map (fun a => map (pair a) (seq 0 h)) (seq 0 w))
    (fun p => place_node weights (Z.of_nat (fst p)) (Z.of_nat (snd p)))
    (zeros 560 560).
Proof.
  unfold map_image. rewrite !range_nat, for_each_map.
  rewrite <- (for_each_nested
                (fun i j => place_node weights (Z.of_nat i) (Z.of_nat j))).
  generalize (zeros 560 560). induction (seq 0 w) as [|i l IH]; intros m;
    simpl; [reflexivity|].
  rewrite for_each_map.
  destruct (for_each (seq 0 h) _ m); [reflexivity|apply IH].
Qed.

(** X13.  For a lattice of at most 20 x 20 nodes of 784 weights each, the
    loops build a 560 x 560 picture in which the node [(i, j)] fills the
    28 x 28 tile at rows [28 i ..], columns [28 j ..], the pixel [(a, b)]
    of the tile being weight [28 a + b] of the node; the tiles of nodes
    that the loops do not visit stay 0. *)
Theorem map_image_layout (weights : ndarray3 R) (n0 n1 w h : nat) :
  wf3 weights -> shape3 weights = (n0, n1, 784%nat) ->
  (w <= 20)%nat -> (h <= 20)%nat -> (w <= n0)%nat -> (h <= n1)%nat ->
  exists img,
    map_image weights (Z.of_nat w) (Z.of_nat h) = inr img /\
    shape2 img = (560, 560)%nat /\ wf2 img /\
    forall i j a b,
      (a < 28)%nat -> (b < 28)%nat ->
      ((i < w)%nat -> (j < h)%nat ->
         pixel img (i * 28 + a) (j * 28 + b)
         = nth (a * 28 + b) (cell weights i j) 0) /\
      ((w <= i)%nat \/ (h <= j)%nat ->
         pixel img (i * 28 + a) (j * 28 + b) = 0).
Proof.
  intros Hwf Hs Hw Hh Hw0 Hh1. rewrite map_image_tiles.
  destruct (place_nodes_ok weights n0 n1 Hs Hwf
              (flat_map (fun a => map (pair a) (seq 0 h)) (seq 0 w))
              (zeros 560 560) (zeros_wf 560 560) eq_refl)
    as (img & E & Hsh & Hwfi & Hpix).
  { apply Forall_forall. intros [i j] Hin. apply in_tiles in Hin.
    simpl. lia. }
  exists img. split; [exact E|]. split; [exact Hsh|]. split; [exact Hwfi|].
  intros i j a b Ha Hb. destruct (Hpix i j a b Ha Hb) as [Hin Hout].
  split.
  - intros Hi Hj. apply Hin, in_tiles. lia.
  - intros Hor. rewrite Hout; [apply zeros_pixel|].
    rewrite in_tiles. lia.
Qed.

(** [map_image_layout] on a lattice of one node. *)
Lemma map_image_layout_witness :
  exists img,
    map_image (mk3 (1, 1, 784)%nat [[repeat 7 784]]) 1 1 = inr img /\
    pixel img 3 5 = 7 /\ pixel img 30 5 = 0.
Proof.
  destruct (map_image_layout (mk3 (1, 1, 784)%nat [[repeat 7 784]])
              1 1 1 1) as (img & E & _ & _ & Hpix).
  - split; [reflexivity|]. repeat constructor.
  - reflexivity.
  - lia.
  - lia.
  - lia.
  - lia.
  - exists img. split; [exact E|]. split.
    + destruct (Hpix 0%nat 0%nat 3%nat 5%nat ltac:(lia) ltac:(lia))
        as [Hin _].
      refine (eq_trans (Hin ltac:(lia) ltac:(lia)) _).
      unfold cell. cbn [data3 nth].
      exact (nth_repeat 7 784 (3 * 28 + 5)).
    + destruct (Hpix 1%nat 0%nat 2%nat 5%nat ltac:(lia) ltac:(lia))
        as [_ Hout].
      exact (Hout (or_introl (le_n 1))).
Defined.

(** X14.  The loops fail on the first node when the nodes do not have 784
    weights ([reshape] raises [ValueError]), and with [IndexError] when
    the lattice has no node at all for a positive [map_w] and [map_h]. *)
Theorem map_image_first_node_fails (weights : ndarray3 R)
    (n0 n1 n2 : nat) (map_w map_h : Z) :
  wf3 weights -> shape3 weights = (n0, n1, n2) ->
  (0 < map_w)%Z -> (0 < map_h)%Z ->
  ((0 < n0)%nat -> (0 < n1)%nat -> n2 <> 784%nat ->
   map_image weights map_w map_h = inl (Numpy ValueError)) /\
  ((n0 = 0 \/ n1 = 0)%nat ->
   map_image weights map_w map_h = inl IndexError).
Proof.
  intros Hwf Hs Hw Hh.
  destruct (range_pos _ Hw) as (lw & Ew).
  destruct (range_pos _ Hh) as (lh & Eh).
  pose proof (wf3_length weights n0 n1 n2 Hs Hwf) as Hl.
  assert (Hfirst : forall e,
            place_node weights 0 0 (zeros 560 560) = inl e ->
            map_image weights map_w map_h = inl e).
  { intros e He. unfold map_image. rewrite Ew, Eh. cbn [for_each].
    now rewrite He. }
  split.
  - intros Hn0 Hn1 Hn2. apply Hfirst.
    change (place_node weights 0 0 (zeros 560 560))
      with (place_node weights (Z.of_nat 0) (Z.of_nat 0) (zeros 560 560)).
    unfold place_node.
    rewrite (getitem_nat (data3 weights) 0 []) by lia.
    rewrite (getitem_nat (nth 0 (data3 weights) []) 0 [])
      by (rewrite (wf3_row_length weights n0 n1 n2 Hs Hwf 0 Hn0); lia).
    rewrite reshape_wrong_size; [reflexivity|].
    rewrite (wf3_cell_length weights n0 n1 n2 Hs Hwf 0 0 Hn0 Hn1).
    exact Hn2.
  - intros Hempty. apply Hfirst. unfold place_node.
    destruct (Nat.eq_dec n0 0) as [E0|E0].
    + rewrite getitem_beyond by lia. reflexivity.
    + assert (E1 : n1 = 0%nat) by lia.
      change (getitem (data3 weights) 0)
        with (getitem (data3 weights) (Z.of_nat 0)).
      rewrite (getitem_nat (data3 weights) 0 []) by lia.
      rewrite getitem_beyond; [reflexivity|].
      rewrite (wf3_row_length weights n0 n1 n2 Hs Hwf 0) by lia. lia.
Qed.

(** [map_image_first_node_fails] on a lattice of one node of 3 weights. *)
Lemma map_image_first_node_fails_witness :
  map_image (weights unit_lattice) 20 20 = inl (Numpy ValueError).
Proof.
  destruct (map_image_first_node_fails (weights unit_lattice) 1 1 3 20 20)
    as [H _].
  - apply randint_wf.
  - reflexivity.
  - lia.
  - lia.
  - apply H; [lia|lia|discriminate].
Defined.

(** ** A map larger than the picture *)

Lemma place_node_outside (weights : ndarray3 R) (n0 n1 : nat)
    (m : ndarray2 R) (i j : nat) :
  wf3 weights -> shape3 weights = (n0, n1, 784%nat) ->
  shape2 m = (560, 560)%nat ->
  (i < n0)%nat -> (j < n1)%nat -> (20 <= i \/ 20 <= j)%nat ->
  place_node weights (Z.of_nat i) (Z.of_nat j) m = inl (Numpy ValueError).
Proof.
  intros Hwf Hs Hms Hi Hj Hout.
  pose proof (wf3_length weights n0 n1 784 Hs Hwf) as Hl.
  pose proof (wf3_row_length weights n0 n1 784 Hs Hwf i Hi) as Hr.
  pose proof (wf3_cell_length weights n0 n1 784 Hs Hwf i j Hi Hj) as Hc.
  unfold place_node.
  rewrite (getitem_nat (data3 weights) i []) by lia.
  rewrite (getitem_nat (nth i (data3 weights) []) j []) by lia.
  destruct (reshape_ok (nth j (nth i (data3 weights) []) []) 28 28)
    as (blk & Eb & Hbs & _).
  { rewrite Hc. reflexivity. }
  rewrite Eb. unfold setitem_block. rewrite Hms, Hbs.
  unfold slice_len.
  destruct (Nat.eqb_spec
              (Nat.min (Z.to_nat (Z.of_nat i * 28 + 28)) 560
               - Nat.min (Z.to_nat (Z.of_nat i * 28)) 560) 28) as [E1|E1];
    [|reflexivity].
  destruct (Nat.eqb_spec
              (Nat.min (Z.to_nat (Z.of_nat j * 28 + 28)) 560
               - Nat.min (Z.to_nat (Z.of_nat j * 28)) 560) 28) as [E2|E2];
    [|reflexivity].
  exfalso. lia.
Qed.

Lemma place_nodes_stop (weights : ndarray3 R) (n0 n1 : nat)
    (pre post : list (nat * nat)) (bad : nat * nat) :
  wf3 weights -> shape3 weights = (n0, n1, 784%nat) ->
  Forall (fun p => (fst p < 20)%nat /\ (snd p < 20)%nat /\
                   (fst p < n0)%nat /\ (snd p < n1)%nat) pre ->
  (fst bad < n0)%nat -> (snd bad < n1)%nat ->
  (20 <= fst bad \/ 20 <= snd bad)%nat ->
  for_each (pre ++ bad :: post)
    (fun p => place_node weights (Z.of_nat (fst p)) (Z.of_nat (snd p)))
    (zeros 560 560) = inl (Numpy ValueError).
Proof.
  intros Hwf Hs Hpre Hb0 Hb1 Hout. rewrite for_each_app.
  destruct (place_nodes_ok weights n0 n1 Hs Hwf pre (zeros 560 560)
              (zeros_wf 560 560) eq_refl Hpre) as (m & E & Hms & _).
  rewrite E. cbn [for_each].
  now rewrite (place_node_outside weights n0 n1 m _ _ Hwf Hs Hms Hb0 Hb1 Hout).
Qed.

Lemma seq_split (k n : nat) :
  (k < n)%nat -> seq 0 n = seq 0 k ++ k :: seq (S k) (n - S k).
Proof.
  intros H. replace n with (k + S (n - S k))%nat at 1 by lia.
  now rewrite seq_app.
Qed.

(** X15.  The picture has room for 20 x 20 nodes only: with more than 20
    rows or columns of nodes to draw, the loops raise [ValueError] at the
    first node that falls outside the 560 x 560 array, since its slice is
    empty and the 28 x 28 block cannot be written into it. *)
Theorem map_image_too_large (weights : ndarray3 R) (n0 n1 w h : nat) :
  wf3 weights -> shape3 weights = (n0, n1, 784%nat) ->
  (0 < w)%nat -> (0 < h)%nat -> (w <= n0)%nat -> (h <= n1)%nat ->
  (20 < w \/ 20 < h)%nat ->
  map_image weights (Z.of_nat w) (Z.of_nat h) = inl (Numpy ValueError).
Proof.
  intros Hwf Hs Hw Hh Hw0 Hh1 Hbig. rewrite map_image_tiles.
  set (f := fun a : nat => map (pair a) (seq 0 h)).
  destruct (Nat.lt_ge_cases 20 h) as [Hh20|Hh20].
  - (* the first row of nodes already runs out of columns *)
    rewrite (seq_split 0 w Hw). cbn [seq app flat_map]. unfold f at 1.
    rewrite (seq_split 20 h Hh20), map_app. cbn [map].
    rewrite <- app_assoc, <- app_comm_cons.
    apply (place_nodes_stop weights n0 n1); auto; cbn [fst snd]; try lia.
    rewrite Forall_map, Forall_forall. intros j Hj. apply in_seq in Hj.
    cbn [fst snd]. lia.
  - (* the rows 0 .. 19 fit, the row 20 does not *)
    assert (Hw20 : (20 < w)%nat) by lia.
    rewrite (seq_split 20 w Hw20), flat_map_app. cbn [flat_map].
    remember (seq 0 20) as rows eqn:Erows.
    unfold f at 2. rewrite (seq_split 0 h Hh). cbn [seq app map].
    apply (place_nodes_stop weights n0 n1); auto; cbn [fst snd]; try lia.
    apply Forall_forall. intros [i j] Hin.
    apply in_flat_map in Hin. destruct Hin as (a & Ha & Hin).
    apply in_map_iff in Hin. destruct Hin as (b & Heq & Hb).
    inversion Heq. subst. apply in_seq in Ha, Hb. cbn [fst snd]. lia.
Qed.

(** [map_image_too_large] on a lattice of 1 x 21 nodes. *)
Lemma map_image_too_large_witness :
  map_image (mk3 (1, 21, 784)%nat [repeat (repeat 0 784) 21]) 1 21
  = inl (Numpy ValueError).
Proof.
  apply (map_image_too_large
           (mk3 (1, 21, 784)%nat [repeat (repeat 0 784) 21]) 1 21 1 21).
  - split; [reflexivity|]. constructor; [|constructor].
    split; [apply repeat_length|].
    apply Forall_forall. intros c Hc. apply repeat_spec in Hc. subst c.
    apply repeat_length.
  - reflexivity.
  - lia.
  - lia.
  - lia.
  - lia.
  - lia.
Defined.

End Picture.
